(** * libcoap on RIOT: the network I/O layer [coap_io_riot.c]

    A shallow embedding of [coap_network_send], [coap_network_read],
    [get_udp_header], [get_port] and [coap_run_once], and the properties
    of the send path, the receive path and the event loop. *)

From Stdlib Require Import ZArith List Bool Lia Ascii String.
From Stdlib.Strings Require Import Byte.
Import ListNotations.
Open Scope Z_scope.

(** ** C integer types

    The targets are ILP32: [int], [unsigned], [size_t] and [ssize_t]
    are 32 bits wide.  Unsigned arithmetic wraps around; a conversion to
    a signed type keeps the low bits. *)

Definition wrap (bits x : Z) : Z := x mod 2 ^ bits.

Definition sign (bits x : Z) : Z :=
  let u := wrap bits x in
  if u <? 2 ^ (bits - 1) then u else u - 2 ^ bits.

Definition to_uint32_t : Z -> Z := wrap 32.
Definition to_size_t : Z -> Z := wrap 32.
Definition to_ssize_t : Z -> Z := sign 32.
Definition to_int : Z -> Z := sign 32.
Definition SSIZE_MAX : Z := 2 ^ 31 - 1.
Definition INT_MAX : Z := 2 ^ 31 - 1.

(** ** Constants of the headers

    The macros and typedefs of [coap_io.h], [coap_time.h], [errno.h],
    [timex.h] and [coap_riot.h] that the file uses are parameters of the
    development, with the few facts about them that the proofs need. *)

Class Platform : Type := {
  COAP_SOCKET_CONNECTED : Z;
  COAP_SOCKET_WANT_READ : Z;
  COAP_SOCKET_CAN_READ : Z;
  COAP_RXBUFFER_SIZE : Z;
  LIBCOAP_MAX_SOCKETS : Z;
  EFAULT : Z;
  US_PER_SEC : Z;
  COAP_TICKS_PER_SECOND : Z;
  (** width in bits of the unsigned type [coap_tick_t] *)
  coap_tick_bits : Z;
  (** [sizeof(struct sockaddr_in6)] *)
  sizeof_sockaddr_in6 : Z;
  (** byte order of the host *)
  host_big_endian : bool;
  EFAULT_pos : 0 < EFAULT;
  COAP_RXBUFFER_SIZE_range : 0 <= COAP_RXBUFFER_SIZE <= SSIZE_MAX;
  CAN_READ_WANT_READ_disjoint :
    Z.land COAP_SOCKET_CAN_READ COAP_SOCKET_WANT_READ = 0
}.

(** [sizeof(udp_hdr_t)]: source port, destination port, length, checksum. *)
Definition sizeof_udp_hdr_t : Z := 8.
(** [sizeof(ipv6_addr_t)] *)
Definition sizeof_ipv6_addr_t : Z := 16.

(** ** Memory and on-wire integers *)

(** Byte-addressed memory; a pointer is an address, [None] is [NULL]. *)
Definition memory : Type := Z -> byte.
Definition pointer : Type := option Z.

Definition byte_val (b : byte) : Z := Z.of_N (Byte.to_N b).

Fixpoint load_from (mem : memory) (a : Z) (n : nat) : list byte :=
  match n with
  | O => []
  | S k => mem a :: load_from mem (a + 1) k
  end.

(** The [n] bytes at address [a]. *)
Definition load_bytes (mem : memory) (a n : Z) : list byte :=
  load_from mem a (Z.to_nat n).

(** [network_uint16_t]: two bytes as they appear on the wire, [u8[0]]
    first. *)
Record network_uint16_t : Type := {
  u8_0 : byte;
  u8_1 : byte
}.

Section Model.
Context {P : Platform}.

(** The member [u16]: the two bytes read as a [uint16_t] of the host,
    without conversion. *)
Definition u16 (n : network_uint16_t) : Z :=
  if host_big_endian
  then 256 * byte_val (u8_0 n) + byte_val (u8_1 n)
  else byte_val (u8_0 n) + 256 * byte_val (u8_1 n).

Definition ntohs (x : Z) : Z :=
  if host_big_endian then x else 256 * (x mod 256) + x / 256.

Definition load_u16 (mem : memory) (a : Z) : network_uint16_t :=
  {| u8_0 := mem a; u8_1 := mem (a + 1) |}.

(** ** Addresses *)

(** The union [addr] of [coap_address_t], tagged by [sa_family]; ports
    are kept as the two bytes stored in the structure. *)
Inductive sockaddr_u : Type :=
| SA_in (sin_port : network_uint16_t) (sin_addr : list byte)
| SA_in6 (sin6_port : network_uint16_t) (sin6_flowinfo : Z)
         (sin6_addr : list byte) (sin6_scope_id : Z)
| SA_other (sa_family : Z).

Record coap_address_t : Type := {
  addr_size : Z;
  addr : sockaddr_u
}.

Record coap_session_t : Type := {
  remote_addr : coap_address_t
}.

(** ** Fragment chains of the GNRC stack *)

Inductive gnrc_nettype_t : Type :=
| GNRC_NETTYPE_NETIF
| GNRC_NETTYPE_UNDEF
| GNRC_NETTYPE_SIXLOWPAN
| GNRC_NETTYPE_IPV6
| GNRC_NETTYPE_ICMPV6
| GNRC_NETTYPE_TCP
| GNRC_NETTYPE_UDP.

Definition nettype_eqb (a b : gnrc_nettype_t) : bool :=
  match a, b with
  | GNRC_NETTYPE_NETIF, GNRC_NETTYPE_NETIF
  | GNRC_NETTYPE_UNDEF, GNRC_NETTYPE_UNDEF
  | GNRC_NETTYPE_SIXLOWPAN, GNRC_NETTYPE_SIXLOWPAN
  | GNRC_NETTYPE_IPV6, GNRC_NETTYPE_IPV6
  | GNRC_NETTYPE_ICMPV6, GNRC_NETTYPE_ICMPV6
  | GNRC_NETTYPE_TCP, GNRC_NETTYPE_TCP
  | GNRC_NETTYPE_UDP, GNRC_NETTYPE_UDP => true
  | _, _ => false
  end.

(** One [gnrc_pktsnip_t]; the field [next] is the tail of the list. *)
Record gnrc_pktsnip_t : Type := {
  snip_data : pointer;
  snip_size : Z;
  snip_type : gnrc_nettype_t
}.

(** A [gnrc_pktsnip_t *]: the chain that starts there, [[]] for [NULL]. *)
Definition pktsnip_ptr : Type := list gnrc_pktsnip_t.

(** Modelled from the spec: the stack's search of a fragment chain by
    type tag ([gnrc_pktsnip_search_type] of RIOT, not under src/); the
    first fragment of the type, or [NULL]. *)
Fixpoint gnrc_pktsnip_search_type (pkt : pktsnip_ptr) (type : gnrc_nettype_t)
  : option gnrc_pktsnip_t :=
  match pkt with
  | [] => None
  | s :: next => if nettype_eqb (snip_type s) type then Some s
                 else gnrc_pktsnip_search_type next type
  end.

(** Modelled from the spec: the total chain length up to the transport
    boundary ([gnrc_pkt_len_upto] of RIOT, not under src/); the sizes of
    the fragments up to and including the first one of the type. *)
Fixpoint gnrc_pkt_len_upto (pkt : pktsnip_ptr) (type : gnrc_nettype_t) : Z :=
  match pkt with
  | [] => 0
  | s :: next => if nettype_eqb (snip_type s) type then snip_size s
                 else snip_size s + gnrc_pkt_len_upto next type
  end.

(** The sizes of all fragments of a chain. *)
Fixpoint gnrc_pkt_len (pkt : pktsnip_ptr) : Z :=
  match pkt with
  | [] => 0
  | s :: next => snip_size s + gnrc_pkt_len next
  end.

(** Modelled from the spec: the stack-provided accessor of the
    network-layer header ([gnrc_ipv6_get_header] of RIOT, not under
    src/); the data of the first IPv6 fragment when its version nibble is
    6, or [NULL]. *)
Definition gnrc_ipv6_get_header (mem : memory) (pkt : pktsnip_ptr) : pointer :=
  match gnrc_pktsnip_search_type pkt GNRC_NETTYPE_IPV6 with
  | Some tmp =>
      match snip_data tmp with
      | Some hdr => if Z.land (byte_val (mem hdr)) 240 =? 96 then Some hdr
                    else None
      | None => None
      end
  | None => None
  end.

(** Fields of [ipv6_hdr_t] and [udp_hdr_t] read through a header
    pointer. *)
Definition ipv6_hdr_src (mem : memory) (hdr : Z) : list byte :=
  load_bytes mem (hdr + 8) sizeof_ipv6_addr_t.
Definition ipv6_hdr_dst (mem : memory) (hdr : Z) : list byte :=
  load_bytes mem (hdr + 24) sizeof_ipv6_addr_t.
Definition udp_hdr_src_port (mem : memory) (hdr : Z) : network_uint16_t :=
  load_u16 mem hdr.
Definition udp_hdr_dst_port (mem : memory) (hdr : Z) : network_uint16_t :=
  load_u16 mem (hdr + 2).

(** ** Sockets, packets, endpoints *)

Record coap_socket_t : Type := {
  fd : Z;
  flags : Z;
  pkt : pktsnip_ptr
}.

Record coap_packet_t : Type := {
  src : coap_address_t;
  dst : coap_address_t;
  ifindex : Z;
  packet_length : Z;
  payload : list byte
}.

(** Sockets live in a store and are referred to by location, so that the
    socket of an endpoint and an entry of the gathered array can be the
    same object. *)
Definition loc : Type := nat.
Definition sock_store : Type := loc -> coap_socket_t.

Definition store_set (st : sock_store) (l : loc) (s : coap_socket_t)
  : sock_store :=
  fun l' => if Nat.eqb l' l then s else st l'.

Record coap_endpoint_t : Type := {
  bind_addr : coap_address_t;
  sock : loc
}.

Record coap_context_t : Type := {
  endpoint : list coap_endpoint_t
}.

(** ** Log levels, notifications, observable events *)

Inductive coap_log_t : Type :=
| LOG_EMERG | LOG_ALERT | LOG_CRIT | LOG_ERR
| LOG_WARNING | LOG_NOTICE | LOG_INFO | LOG_DEBUG.

Definition log_level_num (l : coap_log_t) : Z :=
  match l with
  | LOG_EMERG => 0 | LOG_ALERT => 1 | LOG_CRIT => 2 | LOG_ERR => 3
  | LOG_WARNING => 4 | LOG_NOTICE => 5 | LOG_INFO => 6 | LOG_DEBUG => 7
  end.

(** The type tag of a [msg_t]. *)
Inductive msg_type_t : Type :=
| GNRC_NETAPI_MSG_TYPE_RCV
| GNRC_NETAPI_MSG_TYPE_SND
| GNRC_NETAPI_MSG_TYPE_SET
| GNRC_NETAPI_MSG_TYPE_GET
| MSG_TYPE_OTHER (t : Z).

Record msg_t : Type := {
  msg_type : msg_type_t;
  content_ptr : pktsnip_ptr
}.

(** An argument of a log line: a number or a text. *)
Inductive log_arg : Type :=
| ArgInt (z : Z)
| ArgStr (s : string).

(** The line feed that ends the format of a log line. *)
Definition LF : string := String "010"%char EmptyString.

(** What the layer does to the outside, in order; [EvLog] is a line
    handed to the log handler. *)
Inductive event : Type :=
| EvLog (level : coap_log_t) (fmt : string) (args : list log_arg)
| EvUdpHdrPrint (udp_hdr : Z)
| EvSend (sockfd : Z) (data : list byte) (datalen : Z) (sflags : Z)
| EvSendto (sockfd : Z) (data : list byte) (datalen : Z) (sflags : Z)
           (dest : sockaddr_u) (addrlen : Z)
| EvCoapWrite (max_sockets : Z) (now : Z)
| EvNetregRegister (type : gnrc_nettype_t)
| EvMsgReceiveTimeout (timeout_us : Z)
| EvCoapRead (now : Z)
| EvNetregUnregister (type : gnrc_nettype_t).

(** The collaborators: the protocol library, the socket layer, the
    message queue and the passing of time.  Each call answers from its
    arguments; the durations are in ticks of the monotonic clock. *)
Record Env : Type := {
  env_coap_debug_send_packet : Z;
  env_send : Z -> list byte -> Z -> Z -> Z;
  env_sendto : Z -> list byte -> Z -> Z -> sockaddr_u -> Z -> Z;
  env_coap_get_log_level : coap_log_t;
  (** the text of [coap_socket_strerror()] *)
  env_coap_socket_strerror : string;
  (** [coap_print_addr]: what it returns and the text it leaves in the
      buffer *)
  env_coap_print_addr : coap_address_t -> Z * string;
  (** [coap_write]: the timeout it asks for, the sockets it gathers, and
      what it leaves in the store *)
  env_coap_write : coap_context_t -> Z -> Z -> sock_store ->
                   Z * list loc * sock_store;
  env_coap_write_ticks : Z;
  (** the [msg_t] that [xtimer_msg_receive_timeout] fills in *)
  env_msg_receive : Z -> msg_t;
  env_msg_receive_ticks : Z -> Z;
  env_coap_read : coap_context_t -> Z -> sock_store -> sock_store;
  env_coap_read_ticks : Z
}.

(** Modelled from the spec: the logging macro [coap_log] of
    [coap_debug.h] (not under src/); the line goes to the log handler
    when its level is at most the current log level
    [coap_get_log_level()], and is left out otherwise. *)
Definition coap_log (E : Env) (level : coap_log_t) (fmt : string)
  (args : list log_arg) : list event :=
  if log_level_num level <=? log_level_num (env_coap_get_log_level E)
  then [EvLog level fmt args]
  else [].

(** ** Send path *)

Definition coap_network_send (E : Env) (sock : coap_socket_t)
  (session : coap_session_t) (data : list byte) (datalen : Z)
  : Z * list event :=
  let '(bytes_written, tr) :=
    if env_coap_debug_send_packet E =? 0 then
      (to_ssize_t datalen, [])
    else if negb (Z.land (flags sock) COAP_SOCKET_CONNECTED =? 0) then
      (env_send E (fd sock) data datalen 0,
       [EvSend (fd sock) data datalen 0])
    else
      (env_sendto E (fd sock) data datalen 0
         (addr (remote_addr session)) (addr_size (remote_addr session)),
       [EvSendto (fd sock) data datalen 0
          (addr (remote_addr session)) (addr_size (remote_addr session))])
  in
  (bytes_written,
   tr ++ (if bytes_written <? 0
          then coap_log E LOG_CRIT ("coap_network_send: %s" ++ LF)
                 [ArgStr (env_coap_socket_strerror E)]
          else [])).

(** ** Receive path *)

Definition get_udp_header (pkt : pktsnip_ptr) : pointer :=
  match gnrc_pktsnip_search_type pkt GNRC_NETTYPE_UDP with
  | Some udp => snip_data udp
  | None => None
  end.

(** [memcpy] of [bytes] to the start of the buffer [buf]: a copy longer
    than the buffer runs past its end, which shows as a longer list. *)
Definition memcpy (buf bytes : list byte) : list byte :=
  bytes ++ skipn (List.length bytes) buf.

(** [memset] to zero, then family, address and port of [sockaddr_in6]. *)
Definition sockaddr_in6_of (ip : list byte) (port : network_uint16_t)
  : coap_address_t :=
  {| addr_size := sizeof_sockaddr_in6;
     addr := SA_in6 port 0 ip 0 |}.

(** [flags &= ~COAP_SOCKET_CAN_READ] *)
Definition clear_can_read (s : coap_socket_t) : coap_socket_t :=
  {| fd := fd s;
     flags := Z.land (flags s) (Z.lnot COAP_SOCKET_CAN_READ);
     pkt := pkt s |}.

Record read_result : Type := {
  rr_ret : Z;
  rr_sock : coap_socket_t;
  rr_packet : coap_packet_t;
  rr_trace : list event
}.

Definition coap_network_read (E : Env) (mem : memory)
  (sock : coap_socket_t) (packet : coap_packet_t) : read_result :=
  if Z.land (flags sock) COAP_SOCKET_CAN_READ =? 0 then
    {| rr_ret := -1; rr_sock := sock; rr_packet := packet;
       rr_trace :=
         coap_log E LOG_DEBUG
           ("coap_network_read: COAP_SOCKET_CAN_READ not set" ++ LF) []
    |}
  else
    (* clear has-data flag *)
    let sock := clear_can_read sock in
    let udp := gnrc_pktsnip_search_type (pkt sock) GNRC_NETTYPE_UDP in
    let ipv6_hdr := gnrc_ipv6_get_header mem (pkt sock) in
    match ipv6_hdr, udp, match udp with Some u => snip_data u | None => None end
    with
    | Some ipv6_hdr, Some udp, Some udp_hdr =>
        let len :=
          to_size_t (to_size_t (gnrc_pkt_len_upto (pkt sock) GNRC_NETTYPE_UDP)
                     - sizeof_udp_hdr_t) in
        let tr1 :=
          [EvUdpHdrPrint udp_hdr] ++
          coap_log E LOG_DEBUG
            ("coap_network_read: recvfrom got %zd bytes" ++ LF) [ArgInt len] in
        let '(len, tr2) :=
          if COAP_RXBUFFER_SIZE <? len
          then (COAP_RXBUFFER_SIZE,
                coap_log E LOG_WARNING
                  ("packet exceeds buffer size, truncated" ++ LF) [])
          else (len, []) in
        let packet :=
          {| src := sockaddr_in6_of (ipv6_hdr_src mem ipv6_hdr)
                                    (udp_hdr_src_port mem udp_hdr);
             dst := sockaddr_in6_of (ipv6_hdr_dst mem ipv6_hdr)
                                    (udp_hdr_dst_port mem udp_hdr);
             ifindex := fd sock;
             packet_length := if 0 <? len then len else 0;
             payload := memcpy (payload packet)
                          (load_bytes mem (udp_hdr + sizeof_udp_hdr_t) len) |}
        in
        let tr3 :=
          if log_level_num LOG_DEBUG <=? log_level_num (env_coap_get_log_level E)
          then
            let '(printed, addr_str) := env_coap_print_addr E (src packet) in
            if negb (printed =? 0)
            then coap_log E LOG_DEBUG ("received %zd bytes from %s" ++ LF)
                   [ArgInt len; ArgStr addr_str]
            else []
          else [] in
        {| rr_ret := to_ssize_t len; rr_sock := sock; rr_packet := packet;
           rr_trace := tr1 ++ tr2 ++ tr3 |}
    | _, _, _ =>
        {| rr_ret := - EFAULT; rr_sock := sock; rr_packet := packet;
           rr_trace :=
             coap_log E LOG_DEBUG ("no UDP header found in packet" ++ LF) [] |}
    end.

(** ** Endpoint demultiplexer *)

(** Returns the port of [a] in network byte order or 0 on error. *)
Definition get_port (a : option coap_address_t) : Z :=
  match a with
  | Some a =>
      match addr a with
      | SA_in sin_port _ => u16 sin_port
      | SA_in6 sin6_port _ _ _ => u16 sin6_port
      | SA_other _ => 0
      end
  | None => 0
  end.

(** [flags |= COAP_SOCKET_CAN_READ; pkt = msg.content.ptr] *)
Definition mark_can_read (s : coap_socket_t) (p : pktsnip_ptr)
  : coap_socket_t :=
  {| fd := fd s;
     flags := Z.lor (flags s) COAP_SOCKET_CAN_READ;
     pkt := p |}.

Definition wants_read (s : coap_socket_t) : bool :=
  negb (Z.land (flags s) COAP_SOCKET_WANT_READ =? 0).

(** The [for] loop over the gathered sockets, for one endpoint: the
    first socket with the handle of the endpoint that wants reading is
    marked, and the loop is left. *)
Fixpoint scan_sockets (E : Env) (ep : coap_endpoint_t) (p : pktsnip_ptr)
  (sockets : list loc) (st : sock_store) : sock_store * list event :=
  match sockets with
  | [] => (st, [])
  | s :: rest =>
      if (fd (st (sock ep)) =? fd (st s)) && wants_read (st s) then
        (store_set st s (mark_can_read (st s) p),
         coap_log E LOG_DEBUG ("fd %d on port %u can read" ++ LF)
           [ArgInt (fd (st (sock ep)));
            ArgInt (ntohs (get_port (Some (bind_addr ep))))])
      else scan_sockets E ep p rest st
  end.

(** [LL_FOREACH(ctx->endpoint, ep)] *)
Fixpoint scan_endpoints (E : Env) (dst_port : Z) (p : pktsnip_ptr)
  (sockets : list loc) (eps : list coap_endpoint_t) (st : sock_store)
  : sock_store * list event :=
  match eps with
  | [] => (st, [])
  | ep :: next =>
      let '(st1, tr1) :=
        if get_port (Some (bind_addr ep)) =? dst_port
        then scan_sockets E ep p sockets st
        else (st, []) in
      let '(st2, tr2) := scan_endpoints E dst_port p sockets next st1 in
      (st2, tr1 ++ tr2)
  end.

(** The [switch (msg.type)] of [coap_run_once]. *)
Definition dispatch (E : Env) (mem : memory) (ctx : coap_context_t)
  (sockets : list loc) (msg : msg_t) (st : sock_store)
  : sock_store * list event :=
  match msg_type msg with
  | GNRC_NETAPI_MSG_TYPE_RCV =>
      match get_udp_header (content_ptr msg) with
      | None => (st, [])
      | Some udp_hdr =>
          (* set read flag only for the destination of the received packet *)
          scan_endpoints E (u16 (udp_hdr_dst_port mem udp_hdr))
            (content_ptr msg) sockets (endpoint ctx) st
      end
  | GNRC_NETAPI_MSG_TYPE_SND => (st, [])
  | GNRC_NETAPI_MSG_TYPE_SET
  | GNRC_NETAPI_MSG_TYPE_GET => (st, [])
  | MSG_TYPE_OTHER _ => (st, [])
  end.

(** ** Event loop *)

(** The state the loop runs in: the monotonic clock in ticks, the
    sockets, and what has been done so far. *)
Record world : Type := {
  w_clock : Z;
  w_socks : sock_store;
  w_trace : list event
}.

Definition M (A : Type) : Type := world -> A * world.

Definition ret {A : Type} (a : A) : M A := fun w => (a, w).

Definition bind {A B : Type} (c : M A) (k : A -> M B) : M B :=
  fun w => let '(a, w1) := c w in k a w1.

Notation "x <- c ;; k" := (bind c (fun x => k))
  (at level 61, c at next level, right associativity).
Notation "c ;;; k" := (bind c (fun _ => k))
  (at level 61, right associativity).

Definition emit (e : event) : M unit :=
  fun w => (tt, {| w_clock := w_clock w; w_socks := w_socks w;
                   w_trace := w_trace w ++ [e] |}).

Definition elapse (d : Z) : M unit :=
  fun w => (tt, {| w_clock := w_clock w + d; w_socks := w_socks w;
                   w_trace := w_trace w |}).

Definition to_tick : Z -> Z := wrap coap_tick_bits.

Definition coap_ticks : M Z := fun w => (to_tick (w_clock w), w).

Definition coap_write (E : Env) (ctx : coap_context_t) (max_sockets now : Z)
  : M (Z * list loc) :=
  fun w =>
    let '(timeout, sockets, st) :=
      env_coap_write E ctx max_sockets now (w_socks w) in
    ((timeout, sockets),
     {| w_clock := w_clock w + env_coap_write_ticks E; w_socks := st;
        w_trace := w_trace w ++ [EvCoapWrite max_sockets now] |}).

Definition gnrc_netreg_register (type : gnrc_nettype_t) : M unit :=
  emit (EvNetregRegister type).

Definition gnrc_netreg_unregister (type : gnrc_nettype_t) : M unit :=
  emit (EvNetregUnregister type).

Definition xtimer_msg_receive_timeout (E : Env) (timeout_us : Z) : M msg_t :=
  emit (EvMsgReceiveTimeout timeout_us) ;;;
  elapse (env_msg_receive_ticks E timeout_us) ;;;
  ret (env_msg_receive E timeout_us).

Definition coap_read (E : Env) (ctx : coap_context_t) (now : Z) : M unit :=
  fun w =>
    (tt, {| w_clock := w_clock w + env_coap_read_ticks E;
            w_socks := env_coap_read E ctx now (w_socks w);
            w_trace := w_trace w ++ [EvCoapRead now] |}).

Definition run_dispatch (E : Env) (mem : memory) (ctx : coap_context_t)
  (sockets : list loc) (msg : msg_t) : M unit :=
  fun w =>
    let '(st, tr) := dispatch E mem ctx sockets msg (w_socks w) in
    (tt, {| w_clock := w_clock w; w_socks := st;
            w_trace := w_trace w ++ tr |}).

(** The clamp [if (timeout == 0 || timeout_ms < timeout) timeout =
    timeout_ms;] *)
Definition clamp_timeout (timeout timeout_ms : Z) : Z :=
  if (timeout =? 0) || (timeout_ms <? timeout) then timeout_ms else timeout.

Definition ticks_to_ms (before now : Z) : Z :=
  to_int (to_tick (to_tick (now - before) * 1000) / COAP_TICKS_PER_SECOND).

Definition coap_run_once (E : Env) (mem : memory) (ctx : coap_context_t)
  (timeout_ms : Z) : M Z :=
  before <- coap_ticks ;;
  r <- coap_write E ctx LIBCOAP_MAX_SOCKETS before ;;
  let '(timeout, sockets) := r in
  let num_sockets := Z.of_nat (List.length sockets) in
  let timeout := clamp_timeout timeout timeout_ms in
  (if 0 <? num_sockets then gnrc_netreg_register GNRC_NETTYPE_UDP
   else ret tt) ;;;
  let timeout := clamp_timeout timeout timeout_ms in
  msg <- xtimer_msg_receive_timeout E (to_uint32_t (timeout_ms * US_PER_SEC)) ;;
  run_dispatch E mem ctx sockets msg ;;;
  now <- coap_ticks ;;
  coap_read E ctx now ;;;
  (* cleanup *)
  gnrc_netreg_unregister GNRC_NETTYPE_UDP ;;;
  ret (ticks_to_ms before now).

(** ** Observations on traces *)

Definition is_network_send (e : event) : bool :=
  match e with
  | EvSend _ _ _ _ | EvSendto _ _ _ _ _ _ => true
  | _ => false
  end.

(** The sends that reach the network, in order. *)
Definition network_sends (tr : list event) : list event :=
  filter is_network_send tr.

(** The chain has no fragment of the type. *)
Definition lacks_type (pkt : pktsnip_ptr) (type : gnrc_nettype_t) : Prop :=
  forall s, In s pkt -> snip_type s <> type.

(** The length the receive path settles on: the chain length up to the
    transport fragment less the header, cut at the buffer size. *)
Definition read_len (pkt : pktsnip_ptr) : Z :=
  let len :=
    to_size_t (to_size_t (gnrc_pkt_len_upto pkt GNRC_NETTYPE_UDP)
               - sizeof_udp_hdr_t) in
  if COAP_RXBUFFER_SIZE <? len then COAP_RXBUFFER_SIZE else len.

(** ** Observations on the demultiplexer and the loop *)

Definition zero_port : network_uint16_t := {| u8_0 := x00; u8_1 := x00 |}.

(** The two port bytes of a bound address as they stand in the
    structure; an address of another family has none and counts as
    zero. *)
Definition wire_port (a : coap_address_t) : network_uint16_t :=
  match addr a with
  | SA_in sin_port _ => sin_port
  | SA_in6 sin6_port _ _ _ => sin6_port
  | SA_other _ => zero_port
  end.

(** The test of the endpoint loop. *)
Definition bound_to (dst_port : Z) (ep : coap_endpoint_t) : bool :=
  get_port (Some (bind_addr ep)) =? dst_port.

(** The first of the gathered sockets that has the handle of the
    endpoint and wants reading. *)
Fixpoint first_eligible (st : sock_store) (ep : coap_endpoint_t)
  (sockets : list loc) : option loc :=
  match sockets with
  | [] => None
  | s :: rest =>
      if (fd (st (sock ep)) =? fd (st s)) && wants_read (st s) then Some s
      else first_eligible st ep rest
  end.

(** The sockets woken for a destination port: for each endpoint bound
    to it, in list order, its first eligible socket. *)
Definition woken (st : sock_store) (dst_port : Z) (sockets : list loc)
  (eps : list coap_endpoint_t) : list loc :=
  flat_map (fun ep =>
              if bound_to dst_port ep then
                match first_eligible st ep sockets with
                | Some l => [l]
                | None => []
                end
              else []) eps.

(** The store [st'] differs from [st] in at most one of the sockets. *)
Definition at_most_one_changed (st st' : sock_store) : Prop :=
  forall l1 l2, st' l1 <> st l1 -> st' l2 <> st l2 -> l1 = l2.

(** What one call of the loop adds to the trace. *)
Definition run_events (E : Env) (mem : memory) (ctx : coap_context_t)
  (timeout_ms : Z) (w : world) : list event :=
  skipn (List.length (w_trace w))
    (w_trace (snd (coap_run_once E mem ctx timeout_ms w))).

(** What [coap_write] answers in a call of the loop that starts in [w]. *)
Definition write_answer (E : Env) (ctx : coap_context_t) (w : world)
  : Z * list loc * sock_store :=
  env_coap_write E ctx LIBCOAP_MAX_SOCKETS (to_tick (w_clock w)) (w_socks w).

Definition library_timeout (E : Env) (ctx : coap_context_t) (w : world) : Z :=
  fst (fst (write_answer E ctx w)).

Definition gathered (E : Env) (ctx : coap_context_t) (w : world) : list loc :=
  snd (fst (write_answer E ctx w)).

Definition store_after_write (E : Env) (ctx : coap_context_t) (w : world)
  : sock_store :=
  snd (write_answer E ctx w).

(** The argument of the wait, in microseconds. *)
Definition wait_us (timeout_ms : Z) : Z :=
  to_uint32_t (timeout_ms * US_PER_SEC).

(** The clock reading handed to [coap_read]: taken when the wait and the
    dispatch are over. *)
Definition ticks_at_drive (E : Env) (timeout_ms : Z) (w : world) : Z :=
  to_tick (w_clock w + env_coap_write_ticks E
           + env_msg_receive_ticks E (wait_us timeout_ms)).

(** The limit the specification puts on the wait, in milliseconds: the
    smaller of the two timeouts, the caller's when the library asks for
    0. *)
Definition spec_wait_limit_ms (lib_timeout timeout_ms : Z) : Z :=
  if lib_timeout =? 0 then timeout_ms else Z.min lib_timeout timeout_ms.

(** Every socket of [st'] is the one of [st], marked or not. *)
Definition marks_only (p : pktsnip_ptr) (st st' : sock_store) : Prop :=
  forall l, st' l = st l \/ st' l = mark_can_read (st l) p.

Definition is_log (e : event) : bool :=
  match e with
  | EvLog _ _ _ => true
  | _ => false
  end.

(** The events of one call of the loop, phase by phase. *)
Definition phases (E : Env) (mem : memory) (ctx : coap_context_t)
  (timeout_ms : Z) (w : world) : list event :=
  [EvCoapWrite LIBCOAP_MAX_SOCKETS (to_tick (w_clock w))] ++
  (if 0 <? Z.of_nat (List.length (gathered E ctx w))
   then [EvNetregRegister GNRC_NETTYPE_UDP] else []) ++
  [EvMsgReceiveTimeout (wait_us timeout_ms)] ++
  snd (dispatch E mem ctx (gathered E ctx w)
         (env_msg_receive E (wait_us timeout_ms))
         (store_after_write E ctx w)) ++
  [EvCoapRead (ticks_at_drive E timeout_ms w);
   EvNetregUnregister GNRC_NETTYPE_UDP].


(** ** Further observations *)

(** The port number that two on-wire bytes stand for. *)
Definition port_number (n : network_uint16_t) : Z :=
  256 * byte_val (u8_0 n) + byte_val (u8_1 n).

(** The line the demultiplexer logs when it marks a socket for [ep]. *)
Definition can_read_line (st : sock_store) (ep : coap_endpoint_t) : event :=
  EvLog LOG_DEBUG ("fd %d on port %u can read" ++ LF)
    [ArgInt (fd (st (sock ep)));
     ArgInt (port_number (wire_port (bind_addr ep)))].

(** The current log level lets lines of the level through. *)
Definition logs_at (E : Env) (level : coap_log_t) : bool :=
  log_level_num level <=? log_level_num (env_coap_get_log_level E).

(** The endpoint is bound to the port and one of the gathered sockets
    is eligible for it. *)
Definition wakes (st : sock_store) (dst_port : Z) (sockets : list loc)
  (ep : coap_endpoint_t) : bool :=
  bound_to dst_port ep &&
  match first_eligible st ep sockets with
  | Some _ => true
  | None => false
  end.

(** The collaborators [E], except that [coap_write] asks for the
    timeout [t]. *)
Definition with_timeout (E : Env) (t : Z) : Env :=
  {| env_coap_debug_send_packet := env_coap_debug_send_packet E;
     env_send := env_send E;
     env_sendto := env_sendto E;
     env_coap_get_log_level := env_coap_get_log_level E;
     env_coap_socket_strerror := env_coap_socket_strerror E;
     env_coap_print_addr := env_coap_print_addr E;
     env_coap_write := fun ctx max_sockets now st =>
       let '(_, sockets, st') := env_coap_write E ctx max_sockets now st in
       (t, sockets, st');
     env_coap_write_ticks := env_coap_write_ticks E;
     env_msg_receive := env_msg_receive E;
     env_msg_receive_ticks := env_msg_receive_ticks E;
     env_coap_read := env_coap_read E;
     env_coap_read_ticks := env_coap_read_ticks E |}.

Definition is_coap_write (e : event) : bool :=
  match e with EvCoapWrite _ _ => true | _ => false end.
Definition is_register (e : event) : bool :=
  match e with EvNetregRegister _ => true | _ => false end.
Definition is_wait (e : event) : bool :=
  match e with EvMsgReceiveTimeout _ => true | _ => false end.
Definition is_coap_read (e : event) : bool :=
  match e with EvCoapRead _ => true | _ => false end.
Definition is_unregister (e : event) : bool :=
  match e with EvNetregUnregister _ => true | _ => false end.

(** How many events of a trace pass the test. *)
Definition count_events (f : event -> bool) (tr : list event) : nat :=
  List.length (filter f tr).

End Model.

(** ** A build and a datagram

    The values of a usual 32-bit little-endian build, and the datagram of
    the scenario of the specification: an endpoint bound to port 5683
    (on the wire [0x16 0x33]) and a datagram to that port that carries
    the five bytes of [hello]. *)

Definition example_platform : Platform :=
  {| COAP_SOCKET_CONNECTED := 4;
     COAP_SOCKET_WANT_READ := 16;
     COAP_SOCKET_CAN_READ := 256;
     COAP_RXBUFFER_SIZE := 1472;
     LIBCOAP_MAX_SOCKETS := 16;
     EFAULT := 14;
     US_PER_SEC := 1000000;
     COAP_TICKS_PER_SECOND := 1000;
     coap_tick_bits := 64;
     sizeof_sockaddr_in6 := 28;
     host_big_endian := false;
     EFAULT_pos := eq_refl;
     COAP_RXBUFFER_SIZE_range :=
       conj (fun H : (0 ?= 1472) = Gt => eq_ind Lt (fun c => match c with Lt => True | _ => False end) I Gt H)
            (fun H : (1472 ?= SSIZE_MAX) = Gt => eq_ind Lt (fun c => match c with Lt => True | _ => False end) I Gt H);
     CAN_READ_WANT_READ_disjoint := eq_refl |}.

Definition mem_of_list (l : list byte) : memory :=
  fun a => if a <? 0 then x00 else nth (Z.to_nat a) l x00.

(** IPv6 header (40 bytes, from fe80::1 to fe80::2), UDP header (8 bytes,
    from port 49153 to port 5683), payload. *)
Definition hello_bytes : list byte :=
  [x60; x00; x00; x00; x00; x0d; x11; x40;
   xfe; x80; x00; x00; x00; x00; x00; x00;
   x00; x00; x00; x00; x00; x00; x00; x01;
   xfe; x80; x00; x00; x00; x00; x00; x00;
   x00; x00; x00; x00; x00; x00; x00; x02;
   xc0; x01; x16; x33; x00; x0d; x00; x00;
   x68; x65; x6c; x6c; x6f].

Definition hello_mem : memory := mem_of_list hello_bytes.

Definition hello_payload : list byte := [x68; x65; x6c; x6c; x6f].

(** The chain as the stack hands it over: payload, UDP, IPv6. *)
Definition hello_chain : pktsnip_ptr :=
  [ {| snip_data := Some 48; snip_size := 5; snip_type := GNRC_NETTYPE_UNDEF |};
    {| snip_data := Some 40; snip_size := 8; snip_type := GNRC_NETTYPE_UDP |};
    {| snip_data := Some 0; snip_size := 40; snip_type := GNRC_NETTYPE_IPV6 |} ].

(** The same datagram without its network-layer fragment. *)
Definition headless_chain : pktsnip_ptr :=
  [ {| snip_data := Some 48; snip_size := 5; snip_type := GNRC_NETTYPE_UNDEF |};
    {| snip_data := Some 40; snip_size := 8; snip_type := GNRC_NETTYPE_UDP |} ].

Definition port_5683 : network_uint16_t := {| u8_0 := x16; u8_1 := x33 |}.

Definition any_addr6 (port : network_uint16_t) : coap_address_t :=
  {| addr_size := 28; addr := SA_in6 port 0 (repeat x00 16) 0 |}.

Definition empty_packet : coap_packet_t :=
  {| src := {| addr_size := 0; addr := SA_other 0 |};
     dst := {| addr_size := 0; addr := SA_other 0 |};
     ifindex := 0;
     packet_length := 0;
     payload := repeat x00 1472 |}.

(** A socket with handle 3 that wants reading (flag 16). *)
Definition idle_sock : coap_socket_t :=
  {| fd := 3; flags := 16; pkt := [] |}.

(** The same socket once the demultiplexer has marked it (flag 256) and
    attached the datagram. *)
Definition ready_sock : coap_socket_t :=
  {| fd := 3; flags := 272; pkt := hello_chain |}.

Definition headless_sock : coap_socket_t :=
  {| fd := 3; flags := 272; pkt := headless_chain |}.

(** A connected socket (flag 4). *)
Definition connected_sock : coap_socket_t :=
  {| fd := 3; flags := 4; pkt := [] |}.

Definition peer_session : coap_session_t :=
  {| remote_addr := any_addr6 port_5683 |}.

(** Collaborators that answer as told: [dbg] is what
    [coap_debug_send_packet] returns, [sent] what [send] and [sendto]
    return, [lib_timeout] and [gathered] what [coap_write] returns, [msg]
    the notification; [coap_write] and [coap_read] leave the sockets
    alone and the calls take [wt], [mt] and [rt] ticks. *)
Definition example_env (dbg sent lib_timeout : Z) (gathered : list loc)
  (msg : msg_t) (wt mt rt : Z) : Env :=
  {| env_coap_debug_send_packet := dbg;
     env_send := fun _ _ _ _ => sent;
     env_sendto := fun _ _ _ _ _ _ => sent;
     env_coap_get_log_level := LOG_DEBUG;
     env_coap_socket_strerror := "Bad address";
     env_coap_print_addr := fun _ => (1, "peer"%string);
     env_coap_write := fun _ _ _ st => (lib_timeout, gathered, st);
     env_coap_write_ticks := wt;
     env_msg_receive := fun _ => msg;
     env_msg_receive_ticks := fun _ => mt;
     env_coap_read := fun _ _ st => st;
     env_coap_read_ticks := rt |}.

(** The message the wait leaves behind when its timer fires. *)
Definition timeout_msg : msg_t :=
  {| msg_type := MSG_TYPE_OTHER 0; content_ptr := [] |}.

Definition quiet_env : Env := example_env 1 0 0 [] timeout_msg 0 0 0.

(** ** Contexts and notifications for the loop *)

Definition addr6 (last : byte) (port : network_uint16_t) : coap_address_t :=
  {| addr_size := 28;
     addr := SA_in6 port 0 (repeat x00 15 ++ [last]) 0 |}.

Definition port_5684 : network_uint16_t := {| u8_0 := x16; u8_1 := x34 |}.

(** Two endpoints on different local addresses and the same port 5683,
    with their sockets at locations 0 and 1. *)
Definition shared_port_ctx : coap_context_t :=
  {| endpoint :=
       [ {| bind_addr := addr6 x01 port_5683; sock := 0%nat |};
         {| bind_addr := addr6 x02 port_5683; sock := 1%nat |} ] |}.

(** Two endpoints on the ports 5683 and 5684. *)
Definition two_ports_ctx : coap_context_t :=
  {| endpoint :=
       [ {| bind_addr := addr6 x01 port_5683; sock := 0%nat |};
         {| bind_addr := addr6 x01 port_5684; sock := 1%nat |} ] |}.

(** An endpoint whose bound address has a family of its own. *)
Definition odd_endpoint : coap_endpoint_t :=
  {| bind_addr := {| addr_size := 0; addr := SA_other 0 |}; sock := 0%nat |}.

(** The socket at location [l] has the handle [3 + l] and wants
    reading. *)
Definition reading_socks : sock_store :=
  fun l => {| fd := 3 + Z.of_nat l; flags := 16; pkt := [] |}.

(** The socket at every location wants writing only (flag 32). *)
Definition writing_socks : sock_store :=
  fun l => {| fd := 3 + Z.of_nat l; flags := 32; pkt := [] |}.

Definition hello_msg : msg_t :=
  {| msg_type := GNRC_NETAPI_MSG_TYPE_RCV; content_ptr := hello_chain |}.

Definition start (st : sock_store) : world :=
  {| w_clock := 0; w_socks := st; w_trace := [] |}.

(** A datagram whose transport fragment is cut to 3 bytes, and a socket
    marked for it. *)
Definition short_chain : pktsnip_ptr :=
  [ {| snip_data := Some 40; snip_size := 3; snip_type := GNRC_NETTYPE_UDP |};
    {| snip_data := Some 0; snip_size := 40; snip_type := GNRC_NETTYPE_IPV6 |} ].

Definition short_sock : coap_socket_t :=
  {| fd := 3; flags := 272; pkt := short_chain |}.

(** A start one tick before the 64-bit tick counter wraps. *)
Definition late_start (st : sock_store) : world :=
  {| w_clock := 2 ^ 64 - 1; w_socks := st; w_trace := [] |}.

(** * Properties *)

Section Properties.
Context {P : Platform}.

(** ** Integer conversions *)

Lemma wrap_small (bits x : Z) :
  0 <= x < 2 ^ bits -> wrap bits x = x.
Proof. intros H. unfold wrap. apply Z.mod_small. exact H. Qed.

Lemma sign_small (x : Z) :
  0 <= x <= SSIZE_MAX -> sign 32 x = x.
Proof.
  unfold SSIZE_MAX. intros H. unfold sign.
  rewrite wrap_small by lia.
  replace (32 - 1) with 31 by lia.
  destruct (Z.ltb_spec x (2 ^ 31)); lia.
Qed.

Lemma to_ssize_t_small (x : Z) :
  0 <= x <= SSIZE_MAX -> to_ssize_t x = x.
Proof. apply sign_small. Qed.

Lemma to_size_t_small (x : Z) :
  0 <= x < 2 ^ 32 -> to_size_t x = x.
Proof. apply wrap_small. Qed.

(** ** Send path *)

Lemma network_sends_log_tail E (e : event) (r : Z) level fmt args :
  is_network_send e = true ->
  network_sends
    ([e] ++ (if r <? 0 then coap_log E level fmt args else [])) = [e].
Proof.
  intros He. unfold network_sends, coap_log. cbn [app filter]. rewrite He.
  destruct (r <? 0); [destruct (_ <=? _)|]; reflexivity.
Qed.

Lemma send_suppressed E sock session data datalen :
  env_coap_debug_send_packet E = 0 ->
  0 <= datalen <= SSIZE_MAX ->
  coap_network_send E sock session data datalen = (datalen, []).
Proof.
  intros Hdbg Hlen. unfold coap_network_send.
  rewrite Hdbg. cbn [Z.eqb]. rewrite to_ssize_t_small by exact Hlen.
  destruct (Z.ltb_spec datalen 0); [lia | reflexivity].
Qed.

Lemma send_connected E sock session data datalen :
  env_coap_debug_send_packet E <> 0 ->
  Z.land (flags sock) COAP_SOCKET_CONNECTED <> 0 ->
  coap_network_send E sock session data datalen =
    (env_send E (fd sock) data datalen 0,
     [EvSend (fd sock) data datalen 0] ++
     (if env_send E (fd sock) data datalen 0 <? 0
      then coap_log E LOG_CRIT ("coap_network_send: %s" ++ LF)
             [ArgStr (env_coap_socket_strerror E)]
      else [])).
Proof.
  intros Hdbg Hconn. unfold coap_network_send.
  apply Z.eqb_neq in Hdbg. apply Z.eqb_neq in Hconn.
  rewrite Hdbg, Hconn. reflexivity.
Qed.

Lemma send_addressed E sock session data datalen :
  env_coap_debug_send_packet E <> 0 ->
  Z.land (flags sock) COAP_SOCKET_CONNECTED = 0 ->
  let a := remote_addr session in
  coap_network_send E sock session data datalen =
    (env_sendto E (fd sock) data datalen 0 (addr a) (addr_size a),
     [EvSendto (fd sock) data datalen 0 (addr a) (addr_size a)] ++
     (if env_sendto E (fd sock) data datalen 0 (addr a) (addr_size a) <? 0
      then coap_log E LOG_CRIT ("coap_network_send: %s" ++ LF)
             [ArgStr (env_coap_socket_strerror E)]
      else [])).
Proof.
  intros Hdbg Hconn a. unfold coap_network_send.
  apply Z.eqb_neq in Hdbg. rewrite Hdbg, Hconn. reflexivity.
Qed.

(** C7: a send request of length [datalen].  When the debug hook
    suppresses the packet ([coap_debug_send_packet] returns 0) the call
    returns [datalen] and nothing reaches the network.  Otherwise a
    CONNECTED socket does exactly one [send] of the buffer, whatever the
    session is, and any other socket exactly one [sendto] to the address
    and size stored in the session; what the underlying call returns,
    negative or not, is what the caller gets, and no second send
    follows. *)
Theorem coap_network_send_spec E sock session data datalen
  (Hlen : 0 <= datalen <= SSIZE_MAX) :
  let r := coap_network_send E sock session data datalen in
  (env_coap_debug_send_packet E = 0 ->
     fst r = datalen /\ snd r = []) /\
  (env_coap_debug_send_packet E <> 0 ->
   Z.land (flags sock) COAP_SOCKET_CONNECTED <> 0 ->
     fst r = env_send E (fd sock) data datalen 0 /\
     network_sends (snd r) = [EvSend (fd sock) data datalen 0] /\
     forall session', coap_network_send E sock session' data datalen = r) /\
  (env_coap_debug_send_packet E <> 0 ->
   Z.land (flags sock) COAP_SOCKET_CONNECTED = 0 ->
     fst r = env_sendto E (fd sock) data datalen 0
               (addr (remote_addr session))
               (addr_size (remote_addr session)) /\
     network_sends (snd r) =
       [EvSendto (fd sock) data datalen 0
          (addr (remote_addr session)) (addr_size (remote_addr session))]).
Proof.
  intros r. subst r. repeat split.
  - rewrite send_suppressed by assumption. reflexivity.
  - rewrite send_suppressed by assumption. reflexivity.
  - rewrite send_connected by assumption. reflexivity.
  - rewrite send_connected by assumption. cbn [snd].
    apply network_sends_log_tail. reflexivity.
  - intros session'. rewrite !send_connected by assumption. reflexivity.
  - rewrite send_addressed by assumption. reflexivity.
  - rewrite send_addressed by assumption. cbn [snd].
    apply network_sends_log_tail. reflexivity.
Qed.

(** ** Receive path *)

Lemma nettype_eqb_eq (a b : gnrc_nettype_t) :
  nettype_eqb a b = true <-> a = b.
Proof. destruct a, b; cbn; split; intros H; congruence. Qed.

Lemma nettype_eqb_refl (a : gnrc_nettype_t) : nettype_eqb a a = true.
Proof. apply nettype_eqb_eq. reflexivity. Qed.

Lemma nettype_eqb_neq (a b : gnrc_nettype_t) :
  a <> b -> nettype_eqb a b = false.
Proof.
  intros H. destruct (nettype_eqb a b) eqn:E; [|reflexivity].
  apply nettype_eqb_eq in E. contradiction.
Qed.

Lemma land_clear (f m : Z) : Z.land (Z.land f (Z.lnot m)) m = 0.
Proof.
  rewrite <- Z.land_assoc, (Z.land_comm (Z.lnot m) m), Z.land_lnot_diag.
  apply Z.land_0_r.
Qed.

Lemma land_clear_other (f m k : Z) :
  Z.land m k = 0 -> Z.land (Z.land f (Z.lnot m)) k = Z.land f k.
Proof.
  intros H. apply Z.bits_inj'. intros n Hn.
  rewrite !Z.land_spec, Z.lnot_spec by exact Hn.
  assert (Hb : Z.testbit (Z.land m k) n = false) by (rewrite H; apply Z.bits_0).
  rewrite Z.land_spec in Hb.
  destruct (Z.testbit f n), (Z.testbit m n), (Z.testbit k n);
    cbn in *; congruence.
Qed.

Lemma coap_network_read_not_ready E mem sock packet :
  Z.land (flags sock) COAP_SOCKET_CAN_READ = 0 ->
  coap_network_read E mem sock packet =
    {| rr_ret := -1; rr_sock := sock; rr_packet := packet;
       rr_trace :=
         coap_log E LOG_DEBUG
           ("coap_network_read: COAP_SOCKET_CAN_READ not set" ++ LF) []
    |}.
Proof. intros H. unfold coap_network_read. rewrite H. reflexivity. Qed.

Lemma coap_network_read_sock E mem sock packet :
  Z.land (flags sock) COAP_SOCKET_CAN_READ <> 0 ->
  rr_sock (coap_network_read E mem sock packet) = clear_can_read sock.
Proof.
  intros H. apply Z.eqb_neq in H. unfold coap_network_read. rewrite H.
  change (pkt (clear_can_read sock)) with (pkt sock).
  destruct (gnrc_ipv6_get_header mem (pkt sock)) as [h|]; [|reflexivity].
  destruct (gnrc_pktsnip_search_type (pkt sock) GNRC_NETTYPE_UDP) as [u|];
    [|reflexivity].
  destruct (snip_data u) as [uh|]; [|reflexivity].
  destruct (COAP_RXBUFFER_SIZE <? _); reflexivity.
Qed.

Lemma coap_network_read_fault E mem sock packet :
  Z.land (flags sock) COAP_SOCKET_CAN_READ <> 0 ->
  gnrc_ipv6_get_header mem (pkt sock) = None \/
  get_udp_header (pkt sock) = None ->
  coap_network_read E mem sock packet =
    {| rr_ret := - EFAULT; rr_sock := clear_can_read sock;
       rr_packet := packet;
       rr_trace :=
         coap_log E LOG_DEBUG ("no UDP header found in packet" ++ LF) [] |}.
Proof.
  intros H Hm. apply Z.eqb_neq in H. unfold coap_network_read. rewrite H.
  change (pkt (clear_can_read sock)) with (pkt sock).
  unfold get_udp_header in Hm.
  destruct (gnrc_ipv6_get_header mem (pkt sock)) as [h|].
  - destruct Hm as [Hm|Hm]; [discriminate|].
    destruct (gnrc_pktsnip_search_type (pkt sock) GNRC_NETTYPE_UDP) as [u|];
      [|reflexivity].
    rewrite Hm. reflexivity.
  - reflexivity.
Qed.

Lemma coap_network_read_ok E mem sock packet ipv6_hdr udp udp_hdr :
  Z.land (flags sock) COAP_SOCKET_CAN_READ <> 0 ->
  gnrc_ipv6_get_header mem (pkt sock) = Some ipv6_hdr ->
  gnrc_pktsnip_search_type (pkt sock) GNRC_NETTYPE_UDP = Some udp ->
  snip_data udp = Some udp_hdr ->
  let r := coap_network_read E mem sock packet in
  let len := read_len (pkt sock) in
  rr_ret r = to_ssize_t len /\
  packet_length (rr_packet r) = (if 0 <? len then len else 0) /\
  payload (rr_packet r) =
    memcpy (payload packet)
      (load_bytes mem (udp_hdr + sizeof_udp_hdr_t) len) /\
  src (rr_packet r) =
    sockaddr_in6_of (ipv6_hdr_src mem ipv6_hdr)
      (udp_hdr_src_port mem udp_hdr) /\
  dst (rr_packet r) =
    sockaddr_in6_of (ipv6_hdr_dst mem ipv6_hdr)
      (udp_hdr_dst_port mem udp_hdr) /\
  ifindex (rr_packet r) = fd sock.
Proof.
  intros H Hip Hudp Hdata r len. subst r len.
  apply Z.eqb_neq in H. unfold coap_network_read, read_len. rewrite H.
  change (pkt (clear_can_read sock)) with (pkt sock).
  change (fd (clear_can_read sock)) with (fd sock).
  rewrite Hip, Hudp, Hdata.
  destruct (COAP_RXBUFFER_SIZE <? _); cbn; repeat split; reflexivity.
Qed.

(** C6: without CAN_READ the receive path fails at once with -1 and
    leaves the socket and the packet record as they were; with CAN_READ
    it clears the flag first, on every path and touching no other bit, so
    that the socket it leaves behind never has the flag and a further
    call on it fails with -1: one readiness signal feeds one call. *)
Theorem coap_network_read_can_read E mem sock packet :
  let r := coap_network_read E mem sock packet in
  (Z.land (flags sock) COAP_SOCKET_CAN_READ = 0 ->
     rr_ret r = -1 /\ rr_ret r < 0 /\
     rr_sock r = sock /\ rr_packet r = packet) /\
  (Z.land (flags sock) COAP_SOCKET_CAN_READ <> 0 ->
     rr_sock r = clear_can_read sock /\
     forall k, Z.land COAP_SOCKET_CAN_READ k = 0 ->
               Z.land (flags (rr_sock r)) k = Z.land (flags sock) k) /\
  Z.land (flags (rr_sock r)) COAP_SOCKET_CAN_READ = 0 /\
  (forall E' mem' packet',
     let r' := coap_network_read E' mem' (rr_sock r) packet' in
     rr_ret r' = -1 /\ rr_sock r' = rr_sock r /\ rr_packet r' = packet').
Proof.
  intros r.
  assert (Hclear : Z.land (flags (rr_sock r)) COAP_SOCKET_CAN_READ = 0).
  { subst r.
    destruct (Z.eq_dec (Z.land (flags sock) COAP_SOCKET_CAN_READ) 0) as [H|H].
    - rewrite coap_network_read_not_ready by exact H. exact H.
    - rewrite coap_network_read_sock by exact H. apply land_clear. }
  split; [|split; [|split]].
  - intros H. subst r. rewrite coap_network_read_not_ready by exact H.
    cbn. repeat split.
  - intros H. subst r. rewrite coap_network_read_sock by exact H.
    split; [reflexivity|]. intros k Hk. apply land_clear_other. exact Hk.
  - exact Hclear.
  - intros E' mem' packet' r'. subst r'.
    rewrite coap_network_read_not_ready by exact Hclear.
    cbn. repeat split.
Qed.

Lemma search_type_lacks pkt type :
  lacks_type pkt type -> gnrc_pktsnip_search_type pkt type = None.
Proof.
  unfold lacks_type. induction pkt as [|s next IH]; intros H; cbn.
  - reflexivity.
  - rewrite nettype_eqb_neq by (apply H; left; reflexivity).
    apply IH. intros s' Hs'. apply H. right. exact Hs'.
Qed.

Lemma search_type_app pre u rest type :
  lacks_type pre type -> snip_type u = type ->
  gnrc_pktsnip_search_type (pre ++ u :: rest) type = Some u.
Proof.
  unfold lacks_type. induction pre as [|s pre IH]; intros H Hu; cbn.
  - rewrite Hu, nettype_eqb_refl. reflexivity.
  - rewrite nettype_eqb_neq by (apply H; left; reflexivity).
    apply IH; [|exact Hu]. intros s' Hs'. apply H. right. exact Hs'.
Qed.

Lemma pkt_len_upto_app pre u rest type :
  lacks_type pre type -> snip_type u = type ->
  gnrc_pkt_len_upto (pre ++ u :: rest) type = gnrc_pkt_len pre + snip_size u.
Proof.
  unfold lacks_type. induction pre as [|s pre IH]; intros H Hu; cbn.
  - rewrite Hu, nettype_eqb_refl. reflexivity.
  - rewrite nettype_eqb_neq by (apply H; left; reflexivity).
    rewrite IH; [lia| |exact Hu]. intros s' Hs'. apply H. right. exact Hs'.
Qed.

Lemma ipv6_get_header_lacks mem pkt :
  lacks_type pkt GNRC_NETTYPE_IPV6 -> gnrc_ipv6_get_header mem pkt = None.
Proof.
  intros H. unfold gnrc_ipv6_get_header.
  rewrite search_type_lacks by exact H. reflexivity.
Qed.

Lemma length_load_from mem a n : List.length (load_from mem a n) = n.
Proof.
  revert a. induction n as [|n IH]; intros a; cbn; [reflexivity|].
  rewrite IH. reflexivity.
Qed.

Lemma length_load_bytes mem a n :
  List.length (load_bytes mem a n) = Z.to_nat n.
Proof. apply length_load_from. Qed.

Lemma length_memcpy (buf bytes : list byte) :
  (List.length bytes <= List.length buf)%nat ->
  List.length (memcpy buf bytes) = List.length buf.
Proof.
  intros H. unfold memcpy. rewrite length_app, length_skipn. lia.
Qed.

Lemma firstn_memcpy (buf bytes : list byte) :
  firstn (List.length bytes) (memcpy buf bytes) = bytes.
Proof.
  unfold memcpy. rewrite firstn_app, Nat.sub_diag, firstn_all.
  cbn. apply app_nil_r.
Qed.

Lemma memcpy_full (buf bytes : list byte) :
  List.length bytes = List.length buf -> memcpy buf bytes = bytes.
Proof.
  intros H. unfold memcpy. rewrite H, skipn_all. apply app_nil_r.
Qed.

(** C5: with CAN_READ set, a chain without a network-layer header, or
    without a transport fragment, or whose transport fragment has no
    header region, makes the receive path return the negative code
    [-EFAULT], and the packet record is left exactly as it was. *)
Theorem coap_network_read_malformed E mem sock packet
  (Hready : Z.land (flags sock) COAP_SOCKET_CAN_READ <> 0)
  (Hbad : lacks_type (pkt sock) GNRC_NETTYPE_IPV6 \/
          gnrc_ipv6_get_header mem (pkt sock) = None \/
          lacks_type (pkt sock) GNRC_NETTYPE_UDP \/
          (exists udp,
             gnrc_pktsnip_search_type (pkt sock) GNRC_NETTYPE_UDP = Some udp /\
             snip_data udp = None)) :
  let r := coap_network_read E mem sock packet in
  rr_ret r = - EFAULT /\ rr_ret r < 0 /\ rr_packet r = packet.
Proof.
  intros r. subst r.
  rewrite coap_network_read_fault; [cbn; repeat split | exact Hready |].
  - pose proof EFAULT_pos. lia.
  - destruct Hbad as [H|[H|[H|(udp & Hs & Hd)]]].
    + left. apply ipv6_get_header_lacks. exact H.
    + left. exact H.
    + right. unfold get_udp_header.
      rewrite search_type_lacks by exact H. reflexivity.
    + right. unfold get_udp_header. rewrite Hs. exact Hd.
Qed.

(** C4: a chain whose fragments before the transport fragment hold [L]
    bytes in all, whose transport fragment is a whole header at [a], and
    which has a network-layer header.  With CAN_READ set the receive path
    returns a record whose length is [L] and whose first [L] payload
    bytes are the [L] bytes that follow the transport header, when [L] is
    at most [COAP_RXBUFFER_SIZE]; otherwise the length is
    [COAP_RXBUFFER_SIZE].  In both cases the payload buffer keeps its
    size: nothing is written past its end. *)
Theorem coap_network_read_payload E mem sock packet pre udp rest a L
  (Hready : Z.land (flags sock) COAP_SOCKET_CAN_READ <> 0)
  (Hchain : pkt sock = pre ++ udp :: rest)
  (Hpre : lacks_type pre GNRC_NETTYPE_UDP)
  (Hudp : snip_type udp = GNRC_NETTYPE_UDP)
  (Hhdr : snip_data udp = Some a)
  (Hsize : snip_size udp = sizeof_udp_hdr_t)
  (Hip : gnrc_ipv6_get_header mem (pkt sock) <> None)
  (HL : gnrc_pkt_len pre = L)
  (Hrange : 0 <= L < 2 ^ 32 - sizeof_udp_hdr_t)
  (Hcap : List.length (payload packet) = Z.to_nat COAP_RXBUFFER_SIZE) :
  let r := coap_network_read E mem sock packet in
  (L <= COAP_RXBUFFER_SIZE ->
     rr_ret r = L /\ packet_length (rr_packet r) = L /\
     firstn (Z.to_nat L) (payload (rr_packet r)) =
       load_bytes mem (a + sizeof_udp_hdr_t) L) /\
  (COAP_RXBUFFER_SIZE < L ->
     rr_ret r = COAP_RXBUFFER_SIZE /\
     packet_length (rr_packet r) = COAP_RXBUFFER_SIZE /\
     payload (rr_packet r) =
       load_bytes mem (a + sizeof_udp_hdr_t) COAP_RXBUFFER_SIZE) /\
  List.length (payload (rr_packet r)) = Z.to_nat COAP_RXBUFFER_SIZE.
Proof.
  intros r.
  destruct (gnrc_ipv6_get_header mem (pkt sock)) as [h|] eqn:Hh;
    [|contradiction].
  assert (Hs : gnrc_pktsnip_search_type (pkt sock) GNRC_NETTYPE_UDP = Some udp)
    by (rewrite Hchain; apply search_type_app; assumption).
  destruct (coap_network_read_ok E mem sock packet h udp a Hready Hh Hs Hhdr)
    as (Hret & Hlen & Hpay & _).
  fold r in Hret, Hlen, Hpay.
  pose proof COAP_RXBUFFER_SIZE_range as HR. unfold SSIZE_MAX in HR.
  unfold sizeof_udp_hdr_t in *.
  assert (Hraw : to_size_t (to_size_t
                   (gnrc_pkt_len_upto (pkt sock) GNRC_NETTYPE_UDP) - 8) = L).
  { rewrite Hchain, pkt_len_upto_app, HL, Hsize by assumption.
    rewrite (to_size_t_small (L + 8)) by lia.
    replace (L + 8 - 8) with L by lia. apply to_size_t_small. lia. }
  unfold read_len in Hret, Hlen, Hpay. unfold sizeof_udp_hdr_t in *.
  rewrite Hraw in Hret, Hlen, Hpay.
  destruct (Z.ltb_spec COAP_RXBUFFER_SIZE L) as [Hbig|Hfit].
  - split; [intros; lia|]. split.
    + intros _. rewrite Hret, Hlen, Hpay.
      rewrite to_ssize_t_small by (unfold SSIZE_MAX; lia).
      split; [reflexivity|]. split.
      * destruct (Z.ltb_spec 0 COAP_RXBUFFER_SIZE); lia.
      * apply memcpy_full. rewrite length_load_bytes, Hcap. reflexivity.
    + rewrite Hpay, length_memcpy; [exact Hcap|].
      rewrite length_load_bytes, Hcap. lia.
  - split; [|split; [intros; lia|]].
    + intros _. rewrite Hret, Hlen, Hpay.
      rewrite to_ssize_t_small by (unfold SSIZE_MAX; lia).
      split; [reflexivity|]. split.
      * destruct (Z.ltb_spec 0 L); lia.
      * rewrite <- (length_load_bytes mem (a + 8) L) at 1.
        apply firstn_memcpy.
    + rewrite Hpay, length_memcpy; [exact Hcap|].
      rewrite length_load_bytes, Hcap. lia.
Qed.

(** ** Port match *)

Lemma byte_val_range (b : byte) : 0 <= byte_val b < 256.
Proof.
  unfold byte_val. pose proof (Byte.to_N_bounded b). lia.
Qed.

Lemma byte_val_inj (a b : byte) : byte_val a = byte_val b -> a = b.
Proof.
  unfold byte_val. intros H. apply N2Z.inj in H.
  pose proof (Byte.of_to_N a) as Ha. pose proof (Byte.of_to_N b) as Hb.
  rewrite H in Ha. congruence.
Qed.

Lemma u16_inj (a b : network_uint16_t) : u16 a = u16 b -> a = b.
Proof.
  destruct a as [a0 a1], b as [b0 b1]. unfold u16. cbn [u8_0 u8_1].
  pose proof (byte_val_range a0). pose proof (byte_val_range a1).
  pose proof (byte_val_range b0). pose proof (byte_val_range b1).
  intros Heq.
  assert (byte_val a0 = byte_val b0 /\ byte_val a1 = byte_val b1) as [E0 E1]
    by (destruct host_big_endian; lia).
  apply byte_val_inj in E0. apply byte_val_inj in E1. congruence.
Qed.

Lemma u16_zero_port : u16 zero_port = 0.
Proof. unfold u16, zero_port. destruct host_big_endian; reflexivity. Qed.

Lemma get_port_wire (a : coap_address_t) :
  get_port (Some a) = u16 (wire_port a).
Proof.
  unfold get_port, wire_port.
  destruct (addr a); try reflexivity. symmetry. apply u16_zero_port.
Qed.

Lemma bound_to_wire (ep : coap_endpoint_t) (dst_port : network_uint16_t) :
  bound_to (u16 dst_port) ep = true <-> wire_port (bind_addr ep) = dst_port.
Proof.
  unfold bound_to. rewrite get_port_wire, Z.eqb_eq. split.
  - apply u16_inj.
  - intros ->. reflexivity.
Qed.

Lemma scan_endpoints_filter E dst_port p sockets eps st :
  scan_endpoints E dst_port p sockets (filter (bound_to dst_port) eps) st =
  scan_endpoints E dst_port p sockets eps st.
Proof.
  revert st. induction eps as [|ep eps IH]; intros st; [reflexivity|].
  cbn [filter scan_endpoints]. fold (bound_to dst_port ep).
  destruct (bound_to dst_port ep) eqn:Hb.
  - cbn [scan_endpoints]. fold (bound_to dst_port ep). rewrite Hb.
    destruct (scan_sockets E ep p sockets st) as [st1 tr1]. rewrite IH.
    reflexivity.
  - rewrite IH. destruct (scan_endpoints E dst_port p sockets eps st).
    reflexivity.
Qed.

(** ** Demultiplexer *)

Lemma mark_can_read_fd s p : fd (mark_can_read s p) = fd s.
Proof. reflexivity. Qed.

Lemma mark_can_read_wants s p :
  wants_read (mark_can_read s p) = wants_read s.
Proof.
  unfold wants_read, mark_can_read. cbn [flags].
  rewrite Z.land_lor_distr_l, CAN_READ_WANT_READ_disjoint, Z.lor_0_r.
  reflexivity.
Qed.

Lemma mark_can_read_idem s p :
  mark_can_read (mark_can_read s p) p = mark_can_read s p.
Proof.
  unfold mark_can_read. cbn [fd flags].
  rewrite <- Z.lor_assoc, Z.lor_diag. reflexivity.
Qed.

Lemma marks_only_fd p st st' l : marks_only p st st' -> fd (st' l) = fd (st l).
Proof. intros H. destruct (H l) as [-> | ->]; reflexivity. Qed.

Lemma marks_only_wants p st st' l :
  marks_only p st st' -> wants_read (st' l) = wants_read (st l).
Proof.
  intros H. destruct (H l) as [-> | ->];
    [reflexivity | apply mark_can_read_wants].
Qed.

Lemma marks_only_set p st l :
  marks_only p st (store_set st l (mark_can_read (st l) p)).
Proof.
  intros l'. unfold store_set. destruct (Nat.eqb_spec l' l) as [-> | Hne].
  - right. reflexivity.
  - left. reflexivity.
Qed.

Lemma first_eligible_marks p st st' ep sockets :
  marks_only p st st' ->
  first_eligible st' ep sockets = first_eligible st ep sockets.
Proof.
  intros H. induction sockets as [|s rest IH]; [reflexivity|].
  cbn [first_eligible].
  rewrite !(marks_only_fd p st st') by exact H.
  rewrite (marks_only_wants p st st') by exact H.
  rewrite IH. reflexivity.
Qed.

Lemma woken_marks p st st' dst_port sockets eps :
  marks_only p st st' ->
  woken st' dst_port sockets eps = woken st dst_port sockets eps.
Proof.
  intros H. unfold woken. induction eps as [|ep eps IH]; [reflexivity|].
  cbn [flat_map]. rewrite IH, (first_eligible_marks p st st') by exact H.
  reflexivity.
Qed.

Lemma first_eligible_Some st ep sockets l :
  first_eligible st ep sockets = Some l ->
  exists before after,
    sockets = before ++ l :: after /\
    fd (st (sock ep)) = fd (st l) /\ wants_read (st l) = true /\
    forall s, In s before ->
      fd (st (sock ep)) <> fd (st s) \/ wants_read (st s) = false.
Proof.
  induction sockets as [|s rest IH]; cbn [first_eligible]; [discriminate|].
  destruct ((fd (st (sock ep)) =? fd (st s)) && wants_read (st s)) eqn:He.
  - intros [= <-]. exists [], rest.
    apply andb_true_iff in He. destruct He as [Hfd Hw].
    apply Z.eqb_eq in Hfd. repeat split; try assumption. intros s' [].
  - intros H. destruct (IH H) as (before & after & -> & Hfd & Hw & Hb).
    exists (s :: before), after. repeat split; try assumption.
    intros s' [<- | Hs']; [|apply Hb; exact Hs'].
    apply andb_false_iff in He. destruct He as [He|He]; [left|right].
    + apply Z.eqb_neq. exact He.
    + exact He.
Qed.

Lemma scan_sockets_eq E ep p sockets st :
  scan_sockets E ep p sockets st =
    match first_eligible st ep sockets with
    | Some l =>
        (store_set st l (mark_can_read (st l) p),
         coap_log E LOG_DEBUG ("fd %d on port %u can read" ++ LF)
           [ArgInt (fd (st (sock ep)));
            ArgInt (ntohs (get_port (Some (bind_addr ep))))])
    | None => (st, [])
    end.
Proof.
  induction sockets as [|s rest IH]; [reflexivity|].
  cbn [scan_sockets first_eligible].
  destruct ((fd (st (sock ep)) =? fd (st s)) && wants_read (st s));
    [reflexivity | exact IH].
Qed.

Lemma woken_length st dst_port sockets eps :
  (List.length (woken st dst_port sockets eps)
   <= List.length (filter (bound_to dst_port) eps))%nat.
Proof.
  unfold woken. induction eps as [|ep eps IH]; [apply Nat.le_refl|].
  cbn [flat_map filter]. rewrite length_app.
  destruct (bound_to dst_port ep).
  - destruct (first_eligible st ep sockets); cbn [List.length]; lia.
  - cbn [List.length]. lia.
Qed.

Lemma woken_In st dst_port sockets eps l :
  In l (woken st dst_port sockets eps) <->
  exists ep, In ep eps /\ bound_to dst_port ep = true /\
             first_eligible st ep sockets = Some l.
Proof.
  unfold woken. rewrite in_flat_map. split.
  - intros (ep & Hep & Hl). exists ep. split; [exact Hep|].
    destruct (bound_to dst_port ep); [|destruct Hl].
    destruct (first_eligible st ep sockets) as [l'|]; [|destruct Hl].
    destruct Hl as [<- | []]. split; reflexivity.
  - intros (ep & Hep & Hb & Hf). exists ep. split; [exact Hep|].
    rewrite Hb, Hf. left. reflexivity.
Qed.

Lemma scan_endpoints_woken E dst_port p sockets eps st :
  let r := scan_endpoints E dst_port p sockets eps st in
  (forall l, In l (woken st dst_port sockets eps) ->
             fst r l = mark_can_read (st l) p) /\
  (forall l, ~ In l (woken st dst_port sockets eps) -> fst r l = st l) /\
  List.length (snd r)
  = (if logs_at E LOG_DEBUG
     then List.length (woken st dst_port sockets eps) else 0%nat).
Proof.
  revert st. induction eps as [|ep eps IH]; intros st r; subst r.
  - cbn [scan_endpoints fst snd woken flat_map List.length].
    split; [intros l []|]. split; [reflexivity|].
    destruct (logs_at E LOG_DEBUG); reflexivity.
  - cbn [scan_endpoints]. fold (bound_to dst_port ep).
    unfold woken. cbn [flat_map]. fold (woken st dst_port sockets eps).
    destruct (bound_to dst_port ep).
    + rewrite scan_sockets_eq.
      destruct (first_eligible st ep sockets) as [l0|].
      * pose proof (marks_only_set p st l0) as Hm.
        specialize (IH (store_set st l0 (mark_can_read (st l0) p))).
        cbn zeta in IH. rewrite (woken_marks p st) in IH by exact Hm.
        destruct (scan_endpoints E dst_port p sockets eps
                    (store_set st l0 (mark_can_read (st l0) p)))
          as [st2 tr2].
        cbn [fst snd] in *. destruct IH as (IHin & IHout & IHlen).
        split; [|split].
        -- intros l Hl.
           destruct (in_dec Nat.eq_dec l (woken st dst_port sockets eps))
             as [Hin|Hout].
           ++ rewrite IHin by exact Hin. unfold store_set.
              destruct (Nat.eqb_spec l l0) as [-> | Hne];
                [apply mark_can_read_idem | reflexivity].
           ++ rewrite IHout by exact Hout.
              destruct Hl as [<- | Hl]; [|contradiction].
              unfold store_set. rewrite Nat.eqb_refl. reflexivity.
        -- intros l Hl. rewrite IHout by (intros H; apply Hl; right; exact H).
           unfold store_set. destruct (Nat.eqb_spec l l0) as [-> | Hne];
             [|reflexivity].
           exfalso. apply Hl. left. reflexivity.
        -- rewrite length_app, IHlen. unfold coap_log.
           fold (logs_at E LOG_DEBUG).
           destruct (logs_at E LOG_DEBUG); reflexivity.
      * specialize (IH st). cbn zeta in IH.
        destruct (scan_endpoints E dst_port p sockets eps st) as [st2 tr2].
        exact IH.
    + specialize (IH st). cbn zeta in IH.
      destruct (scan_endpoints E dst_port p sockets eps st) as [st2 tr2].
      exact IH.
Qed.

Lemma dispatch_receive E mem ctx sockets msg st udp_hdr :
  msg_type msg = GNRC_NETAPI_MSG_TYPE_RCV ->
  get_udp_header (content_ptr msg) = Some udp_hdr ->
  dispatch E mem ctx sockets msg st =
    scan_endpoints E (u16 (udp_hdr_dst_port mem udp_hdr)) (content_ptr msg)
      sockets (endpoint ctx) st.
Proof. intros Ht Hh. unfold dispatch. rewrite Ht, Hh. reflexivity. Qed.

(** C8: on a RECEIVE notification the demultiplexer matches the port
    an endpoint is bound to against the destination port of the datagram
    as both stand in memory.  The test of the endpoint loop holds
    exactly when the two port bytes stored in the bound address are the
    two destination-port bytes of the UDP header, byte for byte and
    whatever the byte order of the host; an endpoint that holds the same
    two bytes in the other order does not pass it.  The sockets the
    notification marks are those of the endpoints whose stored bytes are
    the bytes of the header, and no others. *)
Theorem port_match_on_wire E mem ctx sockets msg st udp_hdr
  (Hrcv : msg_type msg = GNRC_NETAPI_MSG_TYPE_RCV)
  (Hhdr : get_udp_header (content_ptr msg) = Some udp_hdr) :
  let wire := {| u8_0 := mem (udp_hdr + 2); u8_1 := mem (udp_hdr + 3) |} in
  let swapped := {| u8_0 := mem (udp_hdr + 3); u8_1 := mem (udp_hdr + 2) |} in
  let st' := fst (dispatch E mem ctx sockets msg st) in
  (forall ep,
     (get_port (Some (bind_addr ep)) =? u16 (udp_hdr_dst_port mem udp_hdr))
     = true <-> wire_port (bind_addr ep) = wire) /\
  (forall ep,
     wire_port (bind_addr ep) = swapped -> swapped <> wire ->
     (get_port (Some (bind_addr ep)) =? u16 (udp_hdr_dst_port mem udp_hdr))
     = false) /\
  (forall ep l,
     In ep (endpoint ctx) -> wire_port (bind_addr ep) = wire ->
     first_eligible st ep sockets = Some l ->
     st' l = mark_can_read (st l) (content_ptr msg)) /\
  (forall l,
     st' l <> st l ->
     exists ep, In ep (endpoint ctx) /\ wire_port (bind_addr ep) = wire /\
                first_eligible st ep sockets = Some l).
Proof.
  intros wire swapped st'.
  assert (Hwire : udp_hdr_dst_port mem udp_hdr = wire).
  { subst wire. unfold udp_hdr_dst_port, load_u16.
    replace (udp_hdr + 2 + 1) with (udp_hdr + 3) by lia. reflexivity. }
  assert (Htest : forall ep,
            (get_port (Some (bind_addr ep))
             =? u16 (udp_hdr_dst_port mem udp_hdr)) = true
            <-> wire_port (bind_addr ep) = wire).
  { intros ep. fold (bound_to (u16 (udp_hdr_dst_port mem udp_hdr)) ep).
    rewrite bound_to_wire, Hwire. reflexivity. }
  subst st'. rewrite (dispatch_receive E mem ctx sockets msg st udp_hdr Hrcv Hhdr).
  destruct (scan_endpoints_woken E (u16 (udp_hdr_dst_port mem udp_hdr))
              (content_ptr msg) sockets (endpoint ctx) st)
    as (Hin & Hout & _).
  split; [exact Htest|]. split; [|split].
  - intros ep Hsw Hne.
    destruct (get_port (Some (bind_addr ep))
              =? u16 (udp_hdr_dst_port mem udp_hdr)) eqn:Hb; [|reflexivity].
    apply Htest in Hb. congruence.
  - intros ep l Hep Hw Hf. apply Hin. apply woken_In. exists ep.
    split; [exact Hep|]. split; [|exact Hf].
    apply bound_to_wire. rewrite Hwire. exact Hw.
  - intros l Hne.
    destruct (in_dec Nat.eq_dec l
                (woken st (u16 (udp_hdr_dst_port mem udp_hdr)) sockets
                   (endpoint ctx))) as [H|H].
    + apply woken_In in H. destruct H as (ep & Hep & Hb & Hf).
      exists ep. split; [exact Hep|]. split; [|exact Hf].
      apply bound_to_wire in Hb. rewrite <- Hwire. exact Hb.
    + exfalso. apply Hne. apply Hout. exact H.
Qed.

(** C2, as the code has it: a RECEIVE notification marks, for each
    endpoint whose bound port bytes are the destination-port bytes of the
    datagram, taken in list order, the first gathered socket that has
    the handle of that endpoint and wants reading: that socket gets
    CAN_READ and the fragment chain, and the scan of the gathered sockets
    ends there for this endpoint.  No other socket changes, so there is
    at most one marking per endpoint bound to the port, at most one in
    all when a single endpoint is bound to it, and none on behalf of an
    endpoint bound to another port. *)
Theorem dispatch_receive_wakes E mem ctx sockets msg st udp_hdr
  (Hrcv : msg_type msg = GNRC_NETAPI_MSG_TYPE_RCV)
  (Hhdr : get_udp_header (content_ptr msg) = Some udp_hdr) :
  let dst_port := udp_hdr_dst_port mem udp_hdr in
  let st' := fst (dispatch E mem ctx sockets msg st) in
  let bound := filter (bound_to (u16 dst_port)) (endpoint ctx) in
  exists marked : list loc,
    (List.length marked <= List.length bound)%nat /\
    (forall l, ~ In l marked -> st' l = st l) /\
    (forall l, In l marked ->
       st' l = mark_can_read (st l) (content_ptr msg) /\
       In l sockets /\ wants_read (st l) = true /\
       exists ep, In ep (endpoint ctx) /\
                  wire_port (bind_addr ep) = dst_port /\
                  fd (st (sock ep)) = fd (st l)) /\
    (forall ep l, In ep (endpoint ctx) ->
                  wire_port (bind_addr ep) = dst_port ->
                  first_eligible st ep sockets = Some l -> In l marked) /\
    ((List.length bound <= 1)%nat -> at_most_one_changed st st').
Proof.
  intros dst_port st' bound. subst st'.
  rewrite (dispatch_receive E mem ctx sockets msg st udp_hdr Hrcv Hhdr).
  fold dst_port.
  destruct (scan_endpoints_woken E (u16 dst_port) (content_ptr msg) sockets
              (endpoint ctx) st) as (Hin & Hout & _).
  pose proof (woken_length st (u16 dst_port) sockets (endpoint ctx)) as Hlen.
  fold bound in Hlen.
  exists (woken st (u16 dst_port) sockets (endpoint ctx)).
  split; [exact Hlen|]. split; [exact Hout|]. split; [|split].
  - intros l Hl. split; [apply Hin; exact Hl|].
    apply woken_In in Hl. destruct Hl as (ep & Hep & Hb & Hf).
    apply first_eligible_Some in Hf.
    destruct Hf as (before & after & -> & Hfd & Hw & _).
    split; [apply in_or_app; right; left; reflexivity|].
    split; [exact Hw|].
    exists ep. split; [exact Hep|]. split; [|exact Hfd].
    apply bound_to_wire. exact Hb.
  - intros ep l Hep Hport Hf. apply woken_In. exists ep.
    split; [exact Hep|]. split; [|exact Hf].
    apply bound_to_wire. exact Hport.
  - intros Hone l1 l2 H1 H2.
    set (wk := woken st (u16 dst_port) sockets (endpoint ctx)) in *.
    assert (In1 : In l1 wk).
    { destruct (in_dec Nat.eq_dec l1 wk) as [H|H]; [exact H|].
      exfalso. apply H1. apply Hout. exact H. }
    assert (In2 : In l2 wk).
    { destruct (in_dec Nat.eq_dec l2 wk) as [H|H]; [exact H|].
      exfalso. apply H2. apply Hout. exact H. }
    destruct wk as [|a [|b wk]].
    + destruct In1.
    + destruct In1 as [<- | []]. destruct In2 as [<- | []]. reflexivity.
    + cbn [List.length] in Hlen. lia.
Qed.

(** C10: [get_port] returns 0 for a null address and for an address
    whose family is neither AF_INET nor AF_INET6.  An endpoint bound to
    such an address passes the port test only for a datagram whose two
    destination-port bytes are zero; for any other datagram the scan of
    the endpoints runs as if that endpoint were not in the list, so
    nothing is marked on its behalf. *)
Theorem get_port_other_family E ep family mem udp_hdr p sockets before after st
  (Hfam : addr (bind_addr ep) = SA_other family) :
  let dst_port := udp_hdr_dst_port mem udp_hdr in
  get_port None = 0 /\
  get_port (Some (bind_addr ep)) = 0 /\
  (bound_to (u16 dst_port) ep = true <-> dst_port = zero_port) /\
  (dst_port <> zero_port ->
   scan_endpoints E (u16 dst_port) p sockets (before ++ ep :: after) st =
   scan_endpoints E (u16 dst_port) p sockets (before ++ after) st).
Proof.
  intros dst_port.
  assert (Hw : wire_port (bind_addr ep) = zero_port)
    by (unfold wire_port; rewrite Hfam; reflexivity).
  split; [reflexivity|]. split; [|split].
  - unfold get_port. rewrite Hfam. reflexivity.
  - rewrite bound_to_wire, Hw. split; congruence.
  - intros Hnz.
    rewrite <- (scan_endpoints_filter _ _ _ _ (before ++ ep :: after)).
    rewrite <- (scan_endpoints_filter _ _ _ _ (before ++ after)).
    rewrite !filter_app. cbn [filter].
    destruct (bound_to (u16 dst_port) ep) eqn:Hb; [|reflexivity].
    apply bound_to_wire in Hb. rewrite Hw in Hb. congruence.
Qed.

(** ** Event loop *)

Lemma coap_run_once_eq E mem ctx timeout_ms w :
  coap_run_once E mem ctx timeout_ms w =
    (ticks_to_ms (to_tick (w_clock w)) (ticks_at_drive E timeout_ms w),
     {| w_clock := w_clock w + env_coap_write_ticks E
                   + env_msg_receive_ticks E (wait_us timeout_ms)
                   + env_coap_read_ticks E;
        w_socks :=
          env_coap_read E ctx (ticks_at_drive E timeout_ms w)
            (fst (dispatch E mem ctx (gathered E ctx w)
                    (env_msg_receive E (wait_us timeout_ms))
                    (store_after_write E ctx w)));
        w_trace := w_trace w ++ phases E mem ctx timeout_ms w |}).
Proof.
  unfold phases, gathered, store_after_write, library_timeout, write_answer,
    ticks_at_drive, wait_us.
  unfold coap_run_once, bind, coap_ticks, coap_write, gnrc_netreg_register,
    gnrc_netreg_unregister, xtimer_msg_receive_timeout, coap_read,
    run_dispatch, emit, elapse, ret, bind.
  destruct (env_coap_write E ctx LIBCOAP_MAX_SOCKETS (to_tick (w_clock w))
              (w_socks w)) as [[timeout sockets] st1].
  cbn [fst snd].
  destruct (0 <? Z.of_nat (List.length sockets));
    cbn [w_clock w_socks w_trace];
    destruct (dispatch E mem ctx sockets
                (env_msg_receive E (to_uint32_t (timeout_ms * US_PER_SEC)))
                st1) as [st2 tr];
    cbn [fst snd w_clock w_socks w_trace];
    repeat rewrite <- app_assoc; reflexivity.
Qed.

Lemma run_events_eq E mem ctx timeout_ms w :
  run_events E mem ctx timeout_ms w = phases E mem ctx timeout_ms w.
Proof.
  unfold run_events. rewrite coap_run_once_eq. cbn [snd w_trace].
  rewrite skipn_app, skipn_all, Nat.sub_diag. reflexivity.
Qed.

Lemma coap_log_logs E level fmt args e :
  In e (coap_log E level fmt args) -> is_log e = true.
Proof.
  unfold coap_log. destruct (_ <=? _).
  - intros [<- | []]. reflexivity.
  - intros [].
Qed.

Lemma scan_sockets_logs E ep p sockets st e :
  In e (snd (scan_sockets E ep p sockets st)) -> is_log e = true.
Proof.
  rewrite scan_sockets_eq.
  destruct (first_eligible st ep sockets); cbn [snd].
  - apply coap_log_logs.
  - intros [].
Qed.

Lemma scan_endpoints_logs E dst_port p sockets eps st e :
  In e (snd (scan_endpoints E dst_port p sockets eps st)) -> is_log e = true.
Proof.
  revert st. induction eps as [|ep eps IH]; intros st; cbn [scan_endpoints].
  - intros [].
  - destruct (get_port (Some (bind_addr ep)) =? dst_port).
    + pose proof (scan_sockets_logs E ep p sockets st e) as H1.
      destruct (scan_sockets E ep p sockets st) as [st1 tr1].
      specialize (IH st1).
      destruct (scan_endpoints E dst_port p sockets eps st1) as [st2 tr2].
      cbn [snd] in *. intros H. apply in_app_or in H. tauto.
    + specialize (IH st).
      destruct (scan_endpoints E dst_port p sockets eps st) as [st2 tr2].
      exact IH.
Qed.

Lemma dispatch_logs E mem ctx sockets msg st e :
  In e (snd (dispatch E mem ctx sockets msg st)) -> is_log e = true.
Proof.
  unfold dispatch.
  destruct (msg_type msg); try (intros []).
  destruct (get_udp_header (content_ptr msg)); [|intros []].
  apply scan_endpoints_logs.
Qed.

Lemma not_log_not_in_dispatch E mem ctx sockets msg st e :
  is_log e = false -> ~ In e (snd (dispatch E mem ctx sockets msg st)).
Proof.
  intros He Hin. apply dispatch_logs in Hin. congruence.
Qed.

(** C9, as the code has it: interest in inbound UDP traffic is
    registered in the gather phase, right after [coap_write] and before
    the wait, exactly when [coap_write] has gathered at least one socket,
    whatever the flags of the gathered sockets; the last thing every call
    does is to deregister that interest, once, registered or not. *)
Theorem netreg_interest E mem ctx timeout_ms w :
  let evs := run_events E mem ctx timeout_ms w in
  (In (EvNetregRegister GNRC_NETTYPE_UDP) evs <-> gathered E ctx w <> []) /\
  (gathered E ctx w <> [] ->
     exists rest,
       evs = EvCoapWrite LIBCOAP_MAX_SOCKETS (to_tick (w_clock w))
             :: EvNetregRegister GNRC_NETTYPE_UDP
             :: EvMsgReceiveTimeout (wait_us timeout_ms) :: rest) /\
  (exists before,
     evs = before ++ [EvNetregUnregister GNRC_NETTYPE_UDP] /\
     ~ In (EvNetregUnregister GNRC_NETTYPE_UDP) before).
Proof.
  intros evs. subst evs. rewrite run_events_eq. unfold phases.
  set (d := snd (dispatch E mem ctx (gathered E ctx w)
                   (env_msg_receive E (wait_us timeout_ms))
                   (store_after_write E ctx w))).
  assert (Hd : forall e, is_log e = false -> ~ In e d)
    by (intros e He; apply not_log_not_in_dispatch; exact He).
  split; [|split].
  - destruct (gathered E ctx w) as [|l ls]; cbn [List.length].
    + cbn [Z.of_nat Z.ltb Z.compare app]. split; [|congruence].
      intros [H|[H|H]]; try discriminate.
      apply in_app_or in H. destruct H as [H|[H|[H|[]]]]; try discriminate.
      exfalso. revert H. apply Hd. reflexivity.
    + replace (0 <? Z.of_nat (S (List.length ls))) with true
        by (symmetry; apply Z.ltb_lt; lia).
      split; [discriminate|]. intros _. right. left. reflexivity.
  - intros Hne. destruct (gathered E ctx w) as [|l ls]; [congruence|].
    replace (0 <? Z.of_nat (List.length (l :: ls))) with true
      by (symmetry; apply Z.ltb_lt; cbn [List.length]; lia).
    eexists. reflexivity.
  - exists ([EvCoapWrite LIBCOAP_MAX_SOCKETS (to_tick (w_clock w))] ++
            (if 0 <? Z.of_nat (List.length (gathered E ctx w))
             then [EvNetregRegister GNRC_NETTYPE_UDP] else []) ++
            [EvMsgReceiveTimeout (wait_us timeout_ms)] ++
            d ++ [EvCoapRead (ticks_at_drive E timeout_ms w)]).
    split.
    + repeat rewrite <- app_assoc. reflexivity.
    + intros H. repeat (apply in_app_or in H; destruct H as [H|H]).
      * destruct H as [H|[]]. discriminate.
      * destruct (0 <? _); [destruct H as [H|[]]; discriminate | destruct H].
      * destruct H as [H|[]]. discriminate.
      * revert H. apply Hd. reflexivity.
      * destruct H as [H|[]]. discriminate.
Qed.

(** C3, as the code has it: the call returns the milliseconds between
    two readings of the monotonic clock, the one taken at entry and the
    one taken once the wait and the dispatch are over, which is also the
    time handed to [coap_read]: [(now - before) * 1000 /
    COAP_TICKS_PER_SECOND] in the arithmetic of [coap_tick_t], converted
    to [int].  The drive phase runs after the second reading, so the
    ticks it takes move the clock but are not in the result. *)
Theorem coap_run_once_elapsed E mem ctx timeout_ms w :
  let before := to_tick (w_clock w) in
  let now := ticks_at_drive E timeout_ms w in
  let waited := env_coap_write_ticks E
                + env_msg_receive_ticks E (wait_us timeout_ms) in
  let r := coap_run_once E mem ctx timeout_ms w in
  fst r = to_int (to_tick (to_tick (now - before) * 1000)
                  / COAP_TICKS_PER_SECOND) /\
  (exists earlier,
     run_events E mem ctx timeout_ms w =
       earlier ++ [EvCoapRead now; EvNetregUnregister GNRC_NETTYPE_UDP]) /\
  w_clock (snd r) = w_clock w + waited + env_coap_read_ticks E /\
  (0 < COAP_TICKS_PER_SECOND -> 0 <= w_clock w -> 0 <= waited ->
   w_clock w + waited < 2 ^ coap_tick_bits ->
   waited * 1000 < 2 ^ coap_tick_bits ->
   waited * 1000 / COAP_TICKS_PER_SECOND <= INT_MAX ->
   fst r = waited * 1000 / COAP_TICKS_PER_SECOND).
Proof.
  intros before now waited r. subst r. rewrite coap_run_once_eq.
  cbn [fst snd w_clock]. fold before now.
  split; [reflexivity|]. split; [|split].
  - rewrite run_events_eq. unfold phases. fold now. eexists.
    repeat rewrite app_assoc. reflexivity.
  - subst waited. lia.
  - intros Htps Hc Hw Hsum Hms Hint.
    unfold ticks_to_ms. subst before now. unfold ticks_at_drive, to_tick.
    rewrite (wrap_small _ (w_clock w)) by lia.
    replace (w_clock w + env_coap_write_ticks E
             + env_msg_receive_ticks E (wait_us timeout_ms))
      with (w_clock w + waited) by (subst waited; lia).
    rewrite (wrap_small _ (w_clock w + waited)) by lia.
    replace (w_clock w + waited - w_clock w) with waited by lia.
    rewrite (wrap_small _ waited) by lia.
    rewrite (wrap_small _ (waited * 1000)) by lia.
    apply sign_small. split; [|exact Hint].
    apply Z.div_pos; lia.
Qed.

(** The wait of every call is given [timeout_ms * US_PER_SEC]
    microseconds, whatever [coap_write] has asked for, and the drive
    phase comes after it. *)
Lemma wait_argument E mem ctx timeout_ms w :
  exists gather woke,
    run_events E mem ctx timeout_ms w =
      gather ++ EvMsgReceiveTimeout (to_uint32_t (timeout_ms * US_PER_SEC))
      :: woke ++ [EvCoapRead (ticks_at_drive E timeout_ms w);
                  EvNetregUnregister GNRC_NETTYPE_UDP] /\
    (forall us, ~ In (EvMsgReceiveTimeout us) gather) /\
    (forall e, In e woke -> is_log e = true).
Proof.
  rewrite run_events_eq. unfold phases.
  exists ([EvCoapWrite LIBCOAP_MAX_SOCKETS (to_tick (w_clock w))] ++
          (if 0 <? Z.of_nat (List.length (gathered E ctx w))
           then [EvNetregRegister GNRC_NETTYPE_UDP] else [])).
  exists (snd (dispatch E mem ctx (gathered E ctx w)
                 (env_msg_receive E (wait_us timeout_ms))
                 (store_after_write E ctx w))).
  split; [|split].
  - rewrite <- app_assoc. reflexivity.
  - intros us H. apply in_app_or in H. destruct H as [[H|[]]|H].
    + discriminate.
    + destruct (0 <? _); [destruct H as [H|[]]; discriminate | destruct H].
  - intros e. apply dispatch_logs.
Qed.

(** With a million microseconds to the second, a caller timeout between
    1 and 4294 ms gives the wait a thousand times the caller timeout,
    which is above the limit of the specification whatever the library
    has asked for. *)
Lemma wait_exceeds_limit E mem ctx timeout_ms w :
  US_PER_SEC = 1000000 ->
  0 < timeout_ms <= 4294 ->
  exists gather rest,
    run_events E mem ctx timeout_ms w =
      gather ++ EvMsgReceiveTimeout (timeout_ms * 1000000) :: rest /\
    1000 * spec_wait_limit_ms (library_timeout E ctx w) timeout_ms
      < timeout_ms * 1000000.
Proof.
  intros Hus Ht.
  destruct (wait_argument E mem ctx timeout_ms w)
    as (gather & woke & Hev & _ & _).
  exists gather. eexists. split.
  - rewrite Hev, Hus. unfold to_uint32_t.
    rewrite wrap_small by (change (2 ^ 32) with 4294967296; lia).
    reflexivity.
  - unfold spec_wait_limit_ms.
    destruct (library_timeout E ctx w =? 0); lia.
Qed.

(** ** Further properties of the send and receive paths *)

Lemma send_log_tail E (pre : list event) (b : Z) :
  (forall e, In e pre -> is_log e = false) ->
  let line := EvLog LOG_CRIT ("coap_network_send: %s" ++ LF)
                [ArgStr (env_coap_socket_strerror E)] in
  let tr := pre ++ (if b <? 0
                    then coap_log E LOG_CRIT ("coap_network_send: %s" ++ LF)
                           [ArgStr (env_coap_socket_strerror E)]
                    else []) in
  (In line tr <-> b < 0 /\ logs_at E LOG_CRIT = true) /\
  (forall e, In e tr -> is_log e = true -> e = line).
Proof.
  intros Hpre line tr. subst tr. unfold coap_log. fold (logs_at E LOG_CRIT).
  assert (Hline : ~ In line pre)
    by (intros H; apply Hpre in H; discriminate H).
  destruct (Z.ltb_spec b 0) as [Hneg|Hpos];
    [destruct (logs_at E LOG_CRIT)|]; fold line; split.
  - split; [intros _; split; [exact Hneg | reflexivity]|].
    intros _. apply in_or_app. right. left. reflexivity.
  - intros e He Hlog. apply in_app_or in He. destruct He as [He|[He|[]]].
    + apply Hpre in He. congruence.
    + symmetry. exact He.
  - rewrite app_nil_r. split; [contradiction|]. intros [_ H]. discriminate H.
  - intros e He Hlog. rewrite app_nil_r in He. apply Hpre in He. congruence.
  - rewrite app_nil_r. split; [contradiction|]. intros [H _]. lia.
  - intros e He Hlog. rewrite app_nil_r in He. apply Hpre in He. congruence.
Qed.

(** X1: on every path of the send path, the critical line, with the
    text of [coap_socket_strerror()], goes to the log handler exactly
    when the value returned is negative and the current log level lets
    lines of level LOG_CRIT through; no other line is ever logged. *)
Theorem coap_network_send_log E sock session data datalen :
  let r := coap_network_send E sock session data datalen in
  let line := EvLog LOG_CRIT ("coap_network_send: %s" ++ LF)
                [ArgStr (env_coap_socket_strerror E)] in
  (In line (snd r) <-> fst r < 0 /\ logs_at E LOG_CRIT = true) /\
  (forall e, In e (snd r) -> is_log e = true -> e = line).
Proof.
  intros r line. subst r line. unfold coap_network_send.
  destruct (env_coap_debug_send_packet E =? 0);
    [|destruct (negb (Z.land (flags sock) COAP_SOCKET_CONNECTED =? 0))];
    cbn [fst snd]; apply send_log_tail.
  - intros e [].
  - intros e [<- | []]. reflexivity.
  - intros e [<- | []]. reflexivity.
Qed.

Lemma read_len_range (pkt : pktsnip_ptr) :
  0 <= read_len pkt <= COAP_RXBUFFER_SIZE.
Proof.
  unfold read_len. pose proof COAP_RXBUFFER_SIZE_range as HR.
  set (x := to_size_t _).
  assert (0 <= x) by (subst x; unfold to_size_t, wrap;
                      apply Z.mod_pos_bound; reflexivity).
  destruct (Z.ltb_spec COAP_RXBUFFER_SIZE x); lia.
Qed.

Lemma get_udp_header_Some (pkt : pktsnip_ptr) (a : Z) :
  get_udp_header pkt = Some a ->
  exists udp, gnrc_pktsnip_search_type pkt GNRC_NETTYPE_UDP = Some udp /\
              snip_data udp = Some a.
Proof.
  unfold get_udp_header.
  destruct (gnrc_pktsnip_search_type pkt GNRC_NETTYPE_UDP) as [udp|];
    [|discriminate].
  intros H. exists udp. split; [reflexivity | exact H].
Qed.

(** The three ways the receive path ends. *)
Lemma coap_network_read_cases E mem sock packet :
  let r := coap_network_read E mem sock packet in
  (Z.land (flags sock) COAP_SOCKET_CAN_READ = 0 /\
   rr_ret r = -1 /\ rr_packet r = packet) \/
  (Z.land (flags sock) COAP_SOCKET_CAN_READ <> 0 /\
   rr_ret r = - EFAULT /\ rr_packet r = packet) \/
  (Z.land (flags sock) COAP_SOCKET_CAN_READ <> 0 /\
   exists h a,
     gnrc_ipv6_get_header mem (pkt sock) = Some h /\
     get_udp_header (pkt sock) = Some a /\
     rr_ret r = read_len (pkt sock) /\
     packet_length (rr_packet r) = read_len (pkt sock) /\
     payload (rr_packet r) =
       memcpy (payload packet)
         (load_bytes mem (a + sizeof_udp_hdr_t) (read_len (pkt sock)))).
Proof.
  intros r. subst r.
  destruct (Z.eq_dec (Z.land (flags sock) COAP_SOCKET_CAN_READ) 0) as [H0|H1].
  - left. rewrite coap_network_read_not_ready by exact H0. auto.
  - right.
    destruct (gnrc_ipv6_get_header mem (pkt sock)) as [h|] eqn:Hip.
    + destruct (get_udp_header (pkt sock)) as [a|] eqn:Hudp.
      * right. split; [exact H1|]. exists h, a.
        destruct (get_udp_header_Some _ _ Hudp) as (udp & Hs & Hd).
        destruct (coap_network_read_ok E mem sock packet h udp a H1 Hip Hs Hd)
          as (Hret & Hlen & Hpay & _).
        pose proof (read_len_range (pkt sock)) as Hr.
        pose proof COAP_RXBUFFER_SIZE_range as HR.
        repeat split; try assumption.
        -- rewrite Hret. apply to_ssize_t_small. lia.
        -- rewrite Hlen. destruct (Z.ltb_spec 0 (read_len (pkt sock))); lia.
      * left. rewrite coap_network_read_fault; auto.
    + left. rewrite coap_network_read_fault; auto.
Qed.

(** X2: whatever the socket and the chain, the receive path returns -1,
    [-EFAULT], or a length between 0 and [COAP_RXBUFFER_SIZE]; a negative
    return leaves the packet record as it was, any other return is the
    length stored in the record; and a payload buffer of
    [COAP_RXBUFFER_SIZE] bytes keeps that size on every path. *)
Theorem coap_network_read_bounds E mem sock packet
  (Hcap : List.length (payload packet) = Z.to_nat COAP_RXBUFFER_SIZE) :
  let r := coap_network_read E mem sock packet in
  List.length (payload (rr_packet r)) = Z.to_nat COAP_RXBUFFER_SIZE /\
  (rr_ret r < 0 ->
     (rr_ret r = -1 \/ rr_ret r = - EFAULT) /\ rr_packet r = packet) /\
  (0 <= rr_ret r ->
     rr_ret r <= COAP_RXBUFFER_SIZE /\
     packet_length (rr_packet r) = rr_ret r /\
     Z.land (flags sock) COAP_SOCKET_CAN_READ <> 0).
Proof.
  intros r. pose proof EFAULT_pos as HE.
  destruct (coap_network_read_cases E mem sock packet)
    as [(H0 & Hret & Hp) | [(H1 & Hret & Hp) | (H1 & h & a & _ & _ & Hret & Hlen & Hpay)]];
    fold r in Hret; try fold r in Hp; try fold r in Hlen; try fold r in Hpay.
  - rewrite Hp, Hret. split; [exact Hcap|]. split; [auto | lia].
  - rewrite Hp, Hret. split; [exact Hcap|]. split; [auto | lia].
  - pose proof (read_len_range (pkt sock)) as Hr.
    rewrite Hret, Hlen. split; [|split; [lia | auto with zarith]].
    rewrite Hpay. rewrite length_memcpy; [exact Hcap|].
    rewrite length_load_bytes, Hcap. lia.
Qed.

Lemma skipn_memcpy (buf bytes : list byte) :
  skipn (List.length bytes) (memcpy buf bytes)
  = skipn (List.length bytes) buf.
Proof.
  unfold memcpy. rewrite skipn_app, skipn_all, Nat.sub_diag. reflexivity.
Qed.

(** X3: when the flag is set and both headers are found, the receive
    path writes the bytes that follow the transport header over the first
    bytes of the payload buffer, as many as it returns, and leaves the
    rest of the buffer as it was; this holds for every chain, whatever
    its fragments are. *)
Theorem coap_network_read_copy E mem sock packet h udp a
  (Hready : Z.land (flags sock) COAP_SOCKET_CAN_READ <> 0)
  (Hip : gnrc_ipv6_get_header mem (pkt sock) = Some h)
  (Hudp : gnrc_pktsnip_search_type (pkt sock) GNRC_NETTYPE_UDP = Some udp)
  (Hdata : snip_data udp = Some a) :
  let r := coap_network_read E mem sock packet in
  let n := Z.to_nat (rr_ret r) in
  0 <= rr_ret r /\
  firstn n (payload (rr_packet r))
    = load_bytes mem (a + sizeof_udp_hdr_t) (rr_ret r) /\
  skipn n (payload (rr_packet r)) = skipn n (payload packet).
Proof.
  intros r n. subst n.
  destruct (coap_network_read_ok E mem sock packet h udp a Hready Hip Hudp Hdata)
    as (Hret & _ & Hpay & _).
  fold r in Hret, Hpay.
  pose proof (read_len_range (pkt sock)) as Hr.
  pose proof COAP_RXBUFFER_SIZE_range as HR.
  rewrite to_ssize_t_small in Hret by lia.
  rewrite Hret, Hpay. split; [lia|].
  rewrite <- (length_load_bytes mem (a + sizeof_udp_hdr_t)
                (read_len (pkt sock))).
  split; [apply firstn_memcpy | apply skipn_memcpy].
Qed.

(** X4: the two addresses of a record that the receive path fills are
    [sockaddr_in6] structures of that size, with flow information and
    scope zero, the 16 address bytes of the network header and the port
    bytes of the transport header as they stand there; [get_port] reads
    back from them the ports of the transport header, and the interface
    tag is the handle of the socket. *)
Theorem coap_network_read_addresses E mem sock packet h udp a
  (Hready : Z.land (flags sock) COAP_SOCKET_CAN_READ <> 0)
  (Hip : gnrc_ipv6_get_header mem (pkt sock) = Some h)
  (Hudp : gnrc_pktsnip_search_type (pkt sock) GNRC_NETTYPE_UDP = Some udp)
  (Hdata : snip_data udp = Some a) :
  let p := rr_packet (coap_network_read E mem sock packet) in
  src p = {| addr_size := sizeof_sockaddr_in6;
             addr := SA_in6 {| u8_0 := mem a; u8_1 := mem (a + 1) |} 0
                       (load_bytes mem (h + 8) 16) 0 |} /\
  dst p = {| addr_size := sizeof_sockaddr_in6;
             addr := SA_in6 {| u8_0 := mem (a + 2); u8_1 := mem (a + 3) |} 0
                       (load_bytes mem (h + 24) 16) 0 |} /\
  List.length (load_bytes mem (h + 8) 16) = 16%nat /\
  List.length (load_bytes mem (h + 24) 16) = 16%nat /\
  get_port (Some (src p)) = u16 (udp_hdr_src_port mem a) /\
  get_port (Some (dst p)) = u16 (udp_hdr_dst_port mem a) /\
  ifindex p = fd sock.
Proof.
  intros p. subst p.
  destruct (coap_network_read_ok E mem sock packet h udp a Hready Hip Hudp Hdata)
    as (_ & _ & _ & Hsrc & Hdst & Hif).
  rewrite Hsrc, Hdst, Hif.
  unfold sockaddr_in6_of, ipv6_hdr_src, ipv6_hdr_dst, udp_hdr_src_port,
    udp_hdr_dst_port, load_u16, sizeof_ipv6_addr_t.
  replace (a + 2 + 1) with (a + 3) by lia.
  rewrite !length_load_bytes. repeat split.
Qed.

Lemma read_len_short (pkt : pktsnip_ptr) :
  0 <= gnrc_pkt_len_upto pkt GNRC_NETTYPE_UDP < sizeof_udp_hdr_t ->
  read_len pkt = COAP_RXBUFFER_SIZE.
Proof.
  unfold sizeof_udp_hdr_t, read_len. intros H.
  pose proof COAP_RXBUFFER_SIZE_range as HR. unfold SSIZE_MAX in HR.
  rewrite (to_size_t_small (gnrc_pkt_len_upto pkt GNRC_NETTYPE_UDP))
    by (change (2 ^ 32) with 4294967296; lia).
  set (x := gnrc_pkt_len_upto pkt GNRC_NETTYPE_UDP) in *.
  unfold sizeof_udp_hdr_t.
  assert (Hw : to_size_t (x - 8) = x - 8 + 2 ^ 32).
  { unfold to_size_t, wrap. symmetry.
    apply (Z.mod_unique_pos _ _ (-1)). 
    - change (2 ^ 32) with 4294967296. lia.
    - lia. }
  rewrite Hw.
  destruct (Z.ltb_spec COAP_RXBUFFER_SIZE (x - 8 + 2 ^ 32)) as [_|Hge];
    [reflexivity|].
  change (2 ^ 32) with 4294967296 in Hge. change (2 ^ 31) with 2147483648 in HR.
  lia.
Qed.

(** X5: a chain that holds fewer than the 8 bytes of a transport header
    up to its transport fragment is not turned down: the subtraction of
    the header size wraps around, the length is cut to
    [COAP_RXBUFFER_SIZE], and the record receives that many bytes from
    behind the header pointer. *)
Theorem coap_network_read_short_header E mem sock packet h udp a
  (Hready : Z.land (flags sock) COAP_SOCKET_CAN_READ <> 0)
  (Hip : gnrc_ipv6_get_header mem (pkt sock) = Some h)
  (Hudp : gnrc_pktsnip_search_type (pkt sock) GNRC_NETTYPE_UDP = Some udp)
  (Hdata : snip_data udp = Some a)
  (Hshort : 0 <= gnrc_pkt_len_upto (pkt sock) GNRC_NETTYPE_UDP
            < sizeof_udp_hdr_t)
  (Hcap : List.length (payload packet) = Z.to_nat COAP_RXBUFFER_SIZE) :
  let r := coap_network_read E mem sock packet in
  rr_ret r = COAP_RXBUFFER_SIZE /\
  packet_length (rr_packet r) = COAP_RXBUFFER_SIZE /\
  payload (rr_packet r)
    = load_bytes mem (a + sizeof_udp_hdr_t) COAP_RXBUFFER_SIZE.
Proof.
  intros r.
  destruct (coap_network_read_ok E mem sock packet h udp a Hready Hip Hudp Hdata)
    as (Hret & Hlen & Hpay & _).
  fold r in Hret, Hlen, Hpay.
  rewrite (read_len_short _ Hshort) in Hret, Hlen, Hpay.
  pose proof COAP_RXBUFFER_SIZE_range as HR.
  rewrite to_ssize_t_small in Hret by lia.
  split; [exact Hret|]. split.
  - rewrite Hlen. destruct (Z.ltb_spec 0 COAP_RXBUFFER_SIZE); lia.
  - rewrite Hpay. apply memcpy_full.
    rewrite length_load_bytes, Hcap. reflexivity.
Qed.

(** ** Further properties of the demultiplexer *)

Lemma scan_endpoints_marks E dst_port p sockets eps st :
  marks_only p st (fst (scan_endpoints E dst_port p sockets eps st)).
Proof.
  intros l.
  destruct (scan_endpoints_woken E dst_port p sockets eps st) as (Hin & Hout & _).
  destruct (in_dec Nat.eq_dec l (woken st dst_port sockets eps)) as [H|H].
  - right. apply Hin. exact H.
  - left. apply Hout. exact H.
Qed.

Lemma land_mark_other (f m k : Z) :
  Z.land m k = 0 -> Z.land (Z.lor f m) k = Z.land f k.
Proof.
  intros H. rewrite Z.land_lor_distr_l, H. apply Z.lor_0_r.
Qed.

Lemma land_mark_self (f m : Z) : m <> 0 -> Z.land (Z.lor f m) m <> 0.
Proof.
  intros Hm H. rewrite Z.land_lor_distr_l, Z.land_diag in H.
  apply Z.lor_eq_0_iff in H. tauto.
Qed.

Lemma land_lnot_absent (f m : Z) :
  Z.land f m = 0 -> Z.land f (Z.lnot m) = f.
Proof.
  intros H. apply Z.bits_inj'. intros n Hn.
  rewrite Z.land_spec, Z.lnot_spec by exact Hn.
  assert (Hb : Z.testbit (Z.land f m) n = false) by (rewrite H; apply Z.bits_0).
  rewrite Z.land_spec in Hb.
  destruct (Z.testbit f n), (Z.testbit m n); cbn in *; congruence.
Qed.

Lemma clear_mark_flags (s : coap_socket_t) (p : pktsnip_ptr) :
  Z.land (flags s) COAP_SOCKET_CAN_READ = 0 ->
  flags (clear_can_read (mark_can_read s p)) = flags s.
Proof.
  intros H. unfold clear_can_read, mark_can_read. cbn [flags].
  rewrite Z.land_lor_distr_l, Z.land_lnot_diag, Z.lor_0_r.
  apply land_lnot_absent. exact H.
Qed.

(** X6: the demultiplexer and the receive path together.  A RECEIVE
    notification whose chain has both headers arrives, and [ep] is bound
    to its destination port with [l] its first eligible socket.  Then
    the receive path run on socket [l] does not fail: it returns the
    length of the datagram cut at the buffer size, the destination port
    bytes of the record are those the endpoint is bound to, the interface
    tag is the handle of the socket, the chain stays attached, and the
    flags are back to what they were before the notification when
    CAN_READ was not set then. *)
Theorem wake_then_read E mem ctx sockets msg st packet a h ep l
  (Hflag : COAP_SOCKET_CAN_READ <> 0)
  (Hrcv : msg_type msg = GNRC_NETAPI_MSG_TYPE_RCV)
  (Hhdr : get_udp_header (content_ptr msg) = Some a)
  (Hip : gnrc_ipv6_get_header mem (content_ptr msg) = Some h)
  (Hep : In ep (endpoint ctx))
  (Hport : wire_port (bind_addr ep) = udp_hdr_dst_port mem a)
  (Hl : first_eligible st ep sockets = Some l) :
  let st' := fst (dispatch E mem ctx sockets msg st) in
  let r := coap_network_read E mem (st' l) packet in
  rr_ret r = read_len (content_ptr msg) /\
  0 <= rr_ret r <= COAP_RXBUFFER_SIZE /\
  wire_port (dst (rr_packet r)) = wire_port (bind_addr ep) /\
  ifindex (rr_packet r) = fd (st l) /\
  pkt (rr_sock r) = content_ptr msg /\
  Z.land (flags (rr_sock r)) COAP_SOCKET_CAN_READ = 0 /\
  (Z.land (flags (st l)) COAP_SOCKET_CAN_READ = 0 ->
   flags (rr_sock r) = flags (st l)).
Proof.
  intros st' r.
  assert (Hst : st' l = mark_can_read (st l) (content_ptr msg)).
  { subst st'. rewrite (dispatch_receive E mem ctx sockets msg st a Hrcv Hhdr).
    apply scan_endpoints_woken. apply woken_In. exists ep.
    split; [exact Hep|]. split; [|exact Hl].
    apply bound_to_wire. exact Hport. }
  subst r. rewrite Hst.
  set (s := mark_can_read (st l) (content_ptr msg)).
  assert (Hready : Z.land (flags s) COAP_SOCKET_CAN_READ <> 0)
    by (apply land_mark_self; exact Hflag).
  destruct (get_udp_header_Some _ _ Hhdr) as (udp & Hs & Hd).
  destruct (coap_network_read_ok E mem s packet h udp a Hready Hip Hs Hd)
    as (Hret & _ & _ & _ & Hdst & Hif).
  pose proof (read_len_range (content_ptr msg)) as Hr.
  pose proof COAP_RXBUFFER_SIZE_range as HR.
  change (pkt s) with (content_ptr msg) in Hret.
  rewrite to_ssize_t_small in Hret by lia.
  rewrite Hret, Hdst, Hif, (coap_network_read_sock E mem s packet Hready).
  repeat split; try lia.
  - symmetry. exact Hport.
  - apply land_clear.
  - intros H0. apply clear_mark_flags. exact H0.
Qed.

(** X7: whatever the notification, the demultiplexer never changes the
    handle of a socket and never clears or sets a flag other than
    CAN_READ; a socket changes only on a RECEIVE notification with a
    transport header, only if it is one of the gathered sockets and wants
    reading, and then it holds CAN_READ and the chain of the
    notification, whatever chain it held before. *)
Theorem dispatch_frame E mem ctx sockets msg st l :
  let st' := fst (dispatch E mem ctx sockets msg st) in
  fd (st' l) = fd (st l) /\
  (forall k, Z.land COAP_SOCKET_CAN_READ k = 0 ->
             Z.land (flags (st' l)) k = Z.land (flags (st l)) k) /\
  (st' l <> st l ->
     msg_type msg = GNRC_NETAPI_MSG_TYPE_RCV /\
     get_udp_header (content_ptr msg) <> None /\
     In l sockets /\ wants_read (st l) = true /\
     st' l = mark_can_read (st l) (content_ptr msg)).
Proof.
  intros st'. subst st'. unfold dispatch.
  destruct (msg_type msg) eqn:Ht;
    try (cbn [fst]; repeat split; congruence).
  destruct (get_udp_header (content_ptr msg)) as [a|] eqn:Hh;
    [|cbn [fst]; repeat split; congruence].
  set (d := u16 (udp_hdr_dst_port mem a)).
  set (p := content_ptr msg).
  destruct (scan_endpoints_woken E d p sockets (endpoint ctx) st)
    as (Hin & Hout & _).
  destruct (in_dec Nat.eq_dec l (woken st d sockets (endpoint ctx)))
    as [H|H].
  - rewrite (Hin l H). split; [reflexivity|]. split.
    + intros k Hk. apply land_mark_other. exact Hk.
    + intros _. split; [reflexivity|]. split; [discriminate|].
      apply woken_In in H. destruct H as (ep & _ & _ & Hf).
      apply first_eligible_Some in Hf.
      destruct Hf as (before & after & -> & _ & Hw & _).
      split; [apply in_or_app; right; left; reflexivity|].
      split; [exact Hw | reflexivity].
  - rewrite (Hout l H). split; [reflexivity|]. split; [reflexivity|].
    intros Hne. contradiction.
Qed.

Lemma ntohs_u16 (n : network_uint16_t) : ntohs (u16 n) = port_number n.
Proof.
  unfold ntohs, u16, port_number.
  pose proof (byte_val_range (u8_0 n)) as H0.
  pose proof (byte_val_range (u8_1 n)) as H1.
  destruct host_big_endian; [reflexivity|].
  set (b0 := byte_val (u8_0 n)) in *. set (b1 := byte_val (u8_1 n)) in *.
  rewrite <- (Z.mod_unique_pos (b0 + 256 * b1) 256 b1 b0) by lia.
  rewrite <- (Z.div_unique_pos (b0 + 256 * b1) 256 b1 b0) by lia.
  reflexivity.
Qed.

Lemma wakes_marks p st st' dst_port sockets ep :
  marks_only p st st' ->
  wakes st' dst_port sockets ep = wakes st dst_port sockets ep.
Proof.
  intros H. unfold wakes.
  rewrite (first_eligible_marks p st st') by exact H. reflexivity.
Qed.

Lemma can_read_line_marks p st st' ep :
  marks_only p st st' -> can_read_line st' ep = can_read_line st ep.
Proof.
  intros H. unfold can_read_line.
  rewrite (marks_only_fd p st st') by exact H. reflexivity.
Qed.

Lemma scan_endpoints_lines E dst_port p sockets eps st :
  snd (scan_endpoints E dst_port p sockets eps st)
  = if logs_at E LOG_DEBUG
    then map (can_read_line st) (filter (wakes st dst_port sockets) eps)
    else [].
Proof.
  revert st. induction eps as [|ep eps IH]; intros st.
  - cbn [scan_endpoints snd filter map].
    destruct (logs_at E LOG_DEBUG); reflexivity.
  - cbn [scan_endpoints filter]. fold (bound_to dst_port ep).
    unfold wakes at 1.
    destruct (bound_to dst_port ep); cbn [andb].
    + rewrite scan_sockets_eq.
      destruct (first_eligible st ep sockets) as [l0|].
      * pose proof (marks_only_set p st l0) as Hm.
        specialize (IH (store_set st l0 (mark_can_read (st l0) p))).
        destruct (scan_endpoints E dst_port p sockets eps
                    (store_set st l0 (mark_can_read (st l0) p)))
          as [st2 tr2].
        cbn [snd] in *. rewrite IH. unfold coap_log.
        fold (logs_at E LOG_DEBUG).
        destruct (logs_at E LOG_DEBUG); [|reflexivity].
        cbn [map app]. f_equal.
        -- unfold can_read_line.
           rewrite get_port_wire, ntohs_u16. reflexivity.
        -- rewrite (filter_ext _ _
                      (fun e => wakes_marks p st _ dst_port sockets e Hm)).
           apply map_ext. intros e. apply (can_read_line_marks p). exact Hm.
      * specialize (IH st).
        destruct (scan_endpoints E dst_port p sockets eps st) as [st2 tr2].
        exact IH.
    + specialize (IH st).
      destruct (scan_endpoints E dst_port p sockets eps st) as [st2 tr2].
      exact IH.
Qed.

(** X8: handling the same notification a second time changes nothing:
    the sockets are as the first pass left them and the same lines are
    logged. *)
Theorem dispatch_idempotent E mem ctx sockets msg st :
  let d := dispatch E mem ctx sockets msg st in
  let d' := dispatch E mem ctx sockets msg (fst d) in
  (forall l, fst d' l = fst d l) /\ snd d' = snd d.
Proof.
  intros d d'. subst d d'. unfold dispatch.
  destruct (msg_type msg); try (cbn [fst snd]; split; reflexivity).
  destruct (get_udp_header (content_ptr msg)) as [a|];
    [|cbn [fst snd]; split; reflexivity].
  set (dp := u16 (udp_hdr_dst_port mem a)). set (p := content_ptr msg).
  set (eps := endpoint ctx).
  pose proof (scan_endpoints_marks E dp p sockets eps st) as Hm.
  set (st1 := fst (scan_endpoints E dp p sockets eps st)) in *.
  split.
  - intros l.
    destruct (scan_endpoints_woken E dp p sockets eps st1) as (Hin1 & Hout1 & _).
    destruct (scan_endpoints_woken E dp p sockets eps st) as (Hin & Hout & _).
    fold st1 in Hin, Hout.
    rewrite (woken_marks p st st1) in Hin1, Hout1 by exact Hm.
    destruct (in_dec Nat.eq_dec l (woken st dp sockets eps)) as [H|H].
    + rewrite (Hin1 l H), (Hin l H). apply mark_can_read_idem.
    + apply Hout1. exact H.
  - rewrite !scan_endpoints_lines. fold st1.
    destruct (logs_at E LOG_DEBUG); [|reflexivity].
    rewrite (filter_ext _ _ (fun e => wakes_marks p st st1 dp sockets e Hm)).
    apply map_ext. intros e. apply (can_read_line_marks p). exact Hm.
Qed.


(** X9: when the current log level lets debug lines through, the
    lines logged for a RECEIVE notification are, in the order of the
    endpoint list, one line for each endpoint that is bound to the
    destination port and has an eligible socket among the gathered ones;
    each carries the handle of the socket of the endpoint and the
    destination port as a number in host order.  At any lower log level
    nothing is logged. *)
Theorem dispatch_log_lines E mem ctx sockets msg st a
  (Hrcv : msg_type msg = GNRC_NETAPI_MSG_TYPE_RCV)
  (Hhdr : get_udp_header (content_ptr msg) = Some a) :
  let dst_port := udp_hdr_dst_port mem a in
  snd (dispatch E mem ctx sockets msg st)
  = if log_level_num LOG_DEBUG <=? log_level_num (env_coap_get_log_level E)
    then map (fun ep =>
                EvLog LOG_DEBUG ("fd %d on port %u can read" ++ LF)
                  [ArgInt (fd (st (sock ep)));
                   ArgInt (port_number dst_port)])
             (filter (wakes st (u16 dst_port) sockets) (endpoint ctx))
    else [].
Proof.
  intros dst_port.
  rewrite (dispatch_receive E mem ctx sockets msg st a Hrcv Hhdr).
  fold dst_port. rewrite scan_endpoints_lines. unfold logs_at.
  destruct (_ <=? _); [|reflexivity].
  apply map_ext_in. intros ep Hep.
  apply filter_In in Hep. destruct Hep as [_ Hw].
  unfold wakes in Hw. apply andb_true_iff in Hw. destruct Hw as [Hb _].
  apply bound_to_wire in Hb. unfold can_read_line. rewrite Hb. reflexivity.
Qed.

(** ** Further properties of the event loop *)

Lemma filter_none {A : Type} (f : A -> bool) (l : list A) :
  (forall x, In x l -> f x = false) -> filter f l = [].
Proof.
  induction l as [|x l IH]; intros H; [reflexivity|].
  cbn [filter]. rewrite (H x (or_introl eq_refl)).
  apply IH. intros y Hy. apply H. right. exact Hy.
Qed.

Lemma filter_dispatch_logs E (f : event -> bool) mem ctx sockets msg st :
  (forall e, is_log e = true -> f e = false) ->
  filter f (snd (dispatch E mem ctx sockets msg st)) = [].
Proof.
  intros Hf. apply filter_none. intros e He. apply Hf.
  apply (dispatch_logs E mem ctx sockets msg st). exact He.
Qed.

(** X10: one call of the loop calls [coap_write] once, takes one
    notification from the queue with a single wait, calls [coap_read]
    once and deregisters once; it registers once when [coap_write] has
    gathered a socket and not at all otherwise. *)
Theorem coap_run_once_calls E mem ctx timeout_ms w :
  let evs := run_events E mem ctx timeout_ms w in
  count_events is_coap_write evs = 1%nat /\
  count_events is_wait evs = 1%nat /\
  count_events is_coap_read evs = 1%nat /\
  count_events is_unregister evs = 1%nat /\
  count_events is_register evs
    = match gathered E ctx w with [] => 0%nat | _ :: _ => 1%nat end.
Proof.
  intros evs. subst evs. rewrite run_events_eq. unfold phases, count_events.
  rewrite !filter_app.
  rewrite !filter_dispatch_logs by (intros [] He; (discriminate He || reflexivity)).
  destruct (gathered E ctx w) as [|l ls].
  - cbn. repeat split.
  - replace (0 <? Z.of_nat (List.length (l :: ls))) with true
      by (symmetry; apply Z.ltb_lt; cbn [List.length]; lia).
    cbn. repeat split.
Qed.

Lemma scan_sockets_level E1 E2 ep p sockets st :
  env_coap_get_log_level E1 = env_coap_get_log_level E2 ->
  scan_sockets E1 ep p sockets st = scan_sockets E2 ep p sockets st.
Proof.
  intros H. rewrite !scan_sockets_eq. unfold coap_log. rewrite H.
  reflexivity.
Qed.

Lemma scan_endpoints_level E1 E2 dst_port p sockets eps st :
  env_coap_get_log_level E1 = env_coap_get_log_level E2 ->
  scan_endpoints E1 dst_port p sockets eps st
  = scan_endpoints E2 dst_port p sockets eps st.
Proof.
  intros H. revert st. induction eps as [|ep eps IH]; intros st;
    [reflexivity|].
  cbn [scan_endpoints]. rewrite (scan_sockets_level E1 E2) by exact H.
  destruct (if get_port (Some (bind_addr ep)) =? dst_port
            then scan_sockets E2 ep p sockets st else (st, []))
    as [st1 tr1].
  rewrite IH. reflexivity.
Qed.

Lemma dispatch_level E1 E2 mem ctx sockets msg st :
  env_coap_get_log_level E1 = env_coap_get_log_level E2 ->
  dispatch E1 mem ctx sockets msg st = dispatch E2 mem ctx sockets msg st.
Proof.
  intros H. unfold dispatch.
  destruct (msg_type msg); try reflexivity.
  destruct (get_udp_header (content_ptr msg)); [|reflexivity].
  apply scan_endpoints_level. exact H.
Qed.

(** X11: the timeout that [coap_write] asks for has no effect on a call
    of the loop: with any other timeout in its place the call returns the
    same value and leaves the same clock, sockets and trace. *)
Theorem coap_run_once_ignores_library_timeout E mem ctx timeout_ms w t :
  coap_run_once (with_timeout E t) mem ctx timeout_ms w
  = coap_run_once E mem ctx timeout_ms w.
Proof.
  rewrite !coap_run_once_eq.
  assert (Hw : write_answer (with_timeout E t) ctx w
               = (t, snd (fst (write_answer E ctx w)),
                  snd (write_answer E ctx w))).
  { unfold write_answer, with_timeout. cbn [env_coap_write].
    destruct (env_coap_write E ctx LIBCOAP_MAX_SOCKETS (to_tick (w_clock w))
                (w_socks w)) as [[t0 sockets] st1].
    reflexivity. }
  unfold phases, gathered, store_after_write, ticks_at_drive.
  rewrite Hw. cbn [fst snd].
  rewrite !(dispatch_level (with_timeout E t) E) by reflexivity.
  reflexivity.
Qed.

Lemma wait_event E mem ctx timeout_ms w us :
  In (EvMsgReceiveTimeout us) (run_events E mem ctx timeout_ms w) <->
  us = wait_us timeout_ms.
Proof.
  rewrite run_events_eq. unfold phases. split.
  - intros H. repeat (apply in_app_or in H; destruct H as [H|H]).
    + destruct H as [H|[]]. discriminate.
    + destruct (0 <? _); [destruct H as [H|[]]; discriminate | destruct H].
    + destruct H as [H|[]]. congruence.
    + apply dispatch_logs in H. discriminate.
    + destruct H as [H|[H|[]]]; discriminate.
  - intros ->. apply in_or_app. right. apply in_or_app. right.
    left. reflexivity.
Qed.

(** X12: with a million microseconds to the second, the wait is given
    a thousand times the caller timeout in milliseconds exactly for
    timeouts up to 4294 ms; beyond that the 32-bit product wraps around,
    and a call with a timeout [2^26] ms longer waits as long as the call
    with the shorter one. *)
Theorem wait_wraps E mem ctx timeout_ms w us
  (Hus : US_PER_SEC = 1000000)
  (Hms : 0 <= timeout_ms)
  (Hwait : In (EvMsgReceiveTimeout us) (run_events E mem ctx timeout_ms w)) :
  0 <= us < 2 ^ 32 /\
  (us = timeout_ms * 1000000 <-> timeout_ms <= 4294) /\
  In (EvMsgReceiveTimeout us)
     (run_events E mem ctx (timeout_ms + 2 ^ 26) w).
Proof.
  apply wait_event in Hwait. subst us.
  unfold wait_us, to_uint32_t, wrap. rewrite Hus.
  assert (Hb : 0 <= (timeout_ms * 1000000) mod 2 ^ 32 < 2 ^ 32)
    by (apply Z.mod_pos_bound; reflexivity).
  split; [exact Hb|]. split.
  - split.
    + intros Heq. rewrite Heq in Hb.
      change (2 ^ 32) with 4294967296 in Hb. lia.
    + intros Hle. apply Z.mod_small.
      change (2 ^ 32) with 4294967296. lia.
  - apply wait_event. unfold wait_us, to_uint32_t, wrap. rewrite Hus.
    replace ((timeout_ms + 2 ^ 26) * 1000000)
      with (timeout_ms * 1000000 + 15625 * 2 ^ 32)
      by (change (2 ^ 26) with 67108864; change (2 ^ 32) with 4294967296; lia).
    rewrite Z.mod_add by (change (2 ^ 32) with 4294967296; lia).
    reflexivity.
Qed.

(** X13: the result is right across a wrap of the tick counter.  The
    difference of the two clock readings is taken in the arithmetic of
    [coap_tick_t], so whatever the clock shows at entry, a call whose
    wait and [coap_write] take [waited] ticks returns [waited * 1000 /
    COAP_TICKS_PER_SECOND], as long as that product fits the tick type
    and the quotient fits [int]. *)
Theorem coap_run_once_elapsed_wraparound E mem ctx timeout_ms w
  (Htps : 0 < COAP_TICKS_PER_SECOND)
  (Hwaited : 0 <= env_coap_write_ticks E
                  + env_msg_receive_ticks E (wait_us timeout_ms))
  (Hfit : (env_coap_write_ticks E
           + env_msg_receive_ticks E (wait_us timeout_ms)) * 1000
          < 2 ^ coap_tick_bits)
  (Hint : (env_coap_write_ticks E
           + env_msg_receive_ticks E (wait_us timeout_ms)) * 1000
          / COAP_TICKS_PER_SECOND <= INT_MAX) :
  fst (coap_run_once E mem ctx timeout_ms w)
  = (env_coap_write_ticks E + env_msg_receive_ticks E (wait_us timeout_ms))
    * 1000 / COAP_TICKS_PER_SECOND.
Proof.
  rewrite coap_run_once_eq. cbn [fst].
  set (d := env_coap_write_ticks E
            + env_msg_receive_ticks E (wait_us timeout_ms)) in *.
  unfold ticks_to_ms, ticks_at_drive.
  replace (w_clock w + env_coap_write_ticks E
           + env_msg_receive_ticks E (wait_us timeout_ms))
    with (w_clock w + d) by (subst d; lia).
  unfold to_tick, wrap.
  rewrite Zminus_mod_idemp_l, Zminus_mod_idemp_r.
  replace (w_clock w + d - w_clock w) with d by lia.
  rewrite (Z.mod_small d) by lia.
  rewrite (Z.mod_small (d * 1000)) by lia.
  apply sign_small. split; [apply Z.div_pos; lia | exact Hint].
Qed.

Lemma scan_endpoints_unbound E dst_port p sockets eps st :
  (forall ep, In ep eps -> bound_to dst_port ep = false) ->
  scan_endpoints E dst_port p sockets eps st = (st, []).
Proof.
  intros H. rewrite <- scan_endpoints_filter.
  rewrite (filter_none _ _ H). reflexivity.
Qed.

(** X14: a notification that is not a RECEIVE, or whose chain has no
    transport header, or whose destination port no endpoint is bound to,
    is dropped without a trace: the call logs nothing and [coap_read]
    gets the sockets exactly as [coap_write] left them. *)
Theorem coap_run_once_drops E mem ctx timeout_ms w
  (Hdrop :
     let msg := env_msg_receive E (wait_us timeout_ms) in
     msg_type msg <> GNRC_NETAPI_MSG_TYPE_RCV \/
     get_udp_header (content_ptr msg) = None \/
     exists a, get_udp_header (content_ptr msg) = Some a /\
               forall ep, In ep (endpoint ctx) ->
                          wire_port (bind_addr ep) <> udp_hdr_dst_port mem a) :
  w_socks (snd (coap_run_once E mem ctx timeout_ms w))
  = env_coap_read E ctx (ticks_at_drive E timeout_ms w)
      (store_after_write E ctx w) /\
  count_events is_log (run_events E mem ctx timeout_ms w) = 0%nat.
Proof.
  cbn zeta in Hdrop.
  assert (Hd : dispatch E mem ctx (gathered E ctx w)
                 (env_msg_receive E (wait_us timeout_ms))
                 (store_after_write E ctx w)
               = (store_after_write E ctx w, [])).
  { unfold dispatch.
    destruct (msg_type (env_msg_receive E (wait_us timeout_ms)));
      try reflexivity.
    destruct Hdrop as [H|[H|(a & Ha & Hno)]]; [congruence| |].
    - rewrite H. reflexivity.
    - rewrite Ha. apply scan_endpoints_unbound. intros ep Hep.
      destruct (bound_to _ ep) eqn:Hb; [|reflexivity].
      apply bound_to_wire in Hb. exfalso. exact (Hno ep Hep Hb). }
  split.
  - rewrite coap_run_once_eq. cbn [snd w_socks]. rewrite Hd. reflexivity.
  - rewrite run_events_eq. unfold phases, count_events. rewrite Hd.
    cbn [snd app]. destruct (0 <? _); reflexivity.
Qed.

(** X15: when the notification of a call is a RECEIVE for the port of
    [ep], and [l] is the first eligible one of the sockets that
    [coap_write] gathered, then the sockets that [coap_read] is called
    with have socket [l] marked CAN_READ with the chain attached, and
    every socket that was not gathered as [coap_write] left it. *)
Theorem coap_run_once_hands_over E mem ctx timeout_ms w a ep l
  (Hrcv : msg_type (env_msg_receive E (wait_us timeout_ms))
          = GNRC_NETAPI_MSG_TYPE_RCV)
  (Hhdr : get_udp_header (content_ptr (env_msg_receive E (wait_us timeout_ms)))
          = Some a)
  (Hep : In ep (endpoint ctx))
  (Hport : wire_port (bind_addr ep) = udp_hdr_dst_port mem a)
  (Hl : first_eligible (store_after_write E ctx w) ep (gathered E ctx w)
        = Some l) :
  exists st',
    w_socks (snd (coap_run_once E mem ctx timeout_ms w))
    = env_coap_read E ctx (ticks_at_drive E timeout_ms w) st' /\
    st' l = mark_can_read (store_after_write E ctx w l)
              (content_ptr (env_msg_receive E (wait_us timeout_ms))) /\
    (forall l', ~ In l' (gathered E ctx w) ->
                st' l' = store_after_write E ctx w l').
Proof.
  set (msg := env_msg_receive E (wait_us timeout_ms)) in *.
  exists (fst (dispatch E mem ctx (gathered E ctx w) msg
                 (store_after_write E ctx w))).
  split; [rewrite coap_run_once_eq; reflexivity|].
  rewrite (dispatch_receive E mem ctx _ msg _ a Hrcv Hhdr).
  destruct (scan_endpoints_woken E (u16 (udp_hdr_dst_port mem a))
              (content_ptr msg) (gathered E ctx w) (endpoint ctx)
              (store_after_write E ctx w)) as (Hin & Hout & _).
  split.
  - apply Hin. apply woken_In. exists ep.
    split; [exact Hep|]. split; [|exact Hl].
    apply bound_to_wire. exact Hport.
  - intros l' Hl'. apply Hout. intros Hw. apply Hl'.
    apply woken_In in Hw. destruct Hw as (ep' & _ & _ & Hf).
    apply first_eligible_Some in Hf.
    destruct Hf as (before & after & -> & _).
    apply in_or_app. right. left. reflexivity.
Qed.

End Properties.

(** * Worked instances *)

Lemma coap_network_send_spec_witness :
  fst (coap_network_send (P := example_platform)
         (example_env 1 (-1) 0 [] timeout_msg 0 0 0)
         connected_sock peer_session hello_payload 5) = -1.
Proof.
  apply (proj1 (proj1 (proj2
    (coap_network_send_spec (P := example_platform)
       (example_env 1 (-1) 0 [] timeout_msg 0 0 0)
       connected_sock peer_session hello_payload 5
       ltac:(vm_compute; split; discriminate)))
    ltac:(vm_compute; discriminate) ltac:(vm_compute; discriminate))).
Defined.

Lemma coap_network_read_can_read_witness :
  rr_ret (coap_network_read (P := example_platform)
            quiet_env hello_mem idle_sock empty_packet) = -1 /\
  flags (rr_sock (coap_network_read (P := example_platform)
                    quiet_env hello_mem ready_sock empty_packet)) = 16.
Proof.
  split.
  - apply (proj1 (coap_network_read_can_read (P := example_platform)
                    quiet_env hello_mem idle_sock empty_packet)).
    reflexivity.
  - rewrite (proj1 (proj1 (proj2
      (coap_network_read_can_read (P := example_platform)
         quiet_env hello_mem ready_sock empty_packet))
      ltac:(vm_compute; discriminate))).
    reflexivity.
Defined.

Lemma coap_network_read_malformed_witness :
  let r := coap_network_read (P := example_platform)
             quiet_env hello_mem headless_sock empty_packet in
  rr_ret r = -14 /\ rr_ret r < 0 /\ rr_packet r = empty_packet.
Proof.
  apply (coap_network_read_malformed (P := example_platform)
           quiet_env hello_mem headless_sock empty_packet).
  - vm_compute. discriminate.
  - left. intros s [Hs|[Hs|[]]]; subst s; discriminate.
Defined.

Lemma coap_network_read_payload_witness :
  let r := coap_network_read (P := example_platform)
             quiet_env hello_mem ready_sock empty_packet in
  rr_ret r = 5 /\ packet_length (rr_packet r) = 5 /\
  firstn 5 (payload (rr_packet r)) = hello_payload.
Proof.
  apply (proj1 (coap_network_read_payload (P := example_platform)
    quiet_env hello_mem ready_sock empty_packet
    [ {| snip_data := Some 48; snip_size := 5;
         snip_type := GNRC_NETTYPE_UNDEF |} ]
    {| snip_data := Some 40; snip_size := 8; snip_type := GNRC_NETTYPE_UDP |}
    [ {| snip_data := Some 0; snip_size := 40;
         snip_type := GNRC_NETTYPE_IPV6 |} ]
    40 5
    ltac:(vm_compute; discriminate)
    eq_refl
    ltac:(intros s [Hs|[]]; subst s; discriminate)
    eq_refl eq_refl eq_refl
    ltac:(vm_compute; discriminate)
    eq_refl
    ltac:(vm_compute; split; [discriminate | reflexivity])
    eq_refl)).
  vm_compute. discriminate.
Defined.

(** C1 on the code: the caller passes 1000 ms and the library asks for
    10 ms, no notification arrives.  The clamp is computed and not used:
    the wait is given [timeout_ms * US_PER_SEC], here 1000000000
    microseconds, where the limit of the specification is 10 ms.  With a
    library timeout of 0 and a caller timeout of 1 ms the wait is given
    1000000 microseconds, where the limit is 1 ms.  The drive phase
    follows the wait in both runs. *)
Theorem wait_ignores_clamp :
  let ctx := two_ports_ctx in
  let w := start reading_socks in
  let E10 := example_env 1 0 10 [] timeout_msg 0 0 0 in
  let E0 := example_env 1 0 0 [] timeout_msg 0 0 0 in
  library_timeout (P := example_platform) E10 ctx w = 10 /\
  run_events (P := example_platform) E10 hello_mem ctx 1000 w =
    [EvCoapWrite 16 0; EvMsgReceiveTimeout 1000000000;
     EvCoapRead 0; EvNetregUnregister GNRC_NETTYPE_UDP] /\
  1000 * spec_wait_limit_ms 10 1000 < 1000000000 /\
  library_timeout (P := example_platform) E0 ctx w = 0 /\
  run_events (P := example_platform) E0 hello_mem ctx 1 w =
    [EvCoapWrite 16 0; EvMsgReceiveTimeout 1000000;
     EvCoapRead 0; EvNetregUnregister GNRC_NETTYPE_UDP] /\
  1000 * spec_wait_limit_ms 0 1 < 1000000.
Proof. vm_compute. repeat split. Qed.

(** Two endpoints share port 5683 and a datagram to that port arrives:
    both sockets are marked in one call. *)
Lemma shared_port_wakes_both :
  let E := example_env 1 0 0 [0%nat; 1%nat] hello_msg 0 0 0 in
  let w' := snd (coap_run_once (P := example_platform) E hello_mem
                   shared_port_ctx 1000 (start reading_socks)) in
  ~ at_most_one_changed reading_socks (w_socks w').
Proof.
  intros E w' H.
  assert (Hne : forall l, (l < 2)%nat -> w_socks w' l <> reading_socks l).
  { intros l Hl Heq. apply (f_equal flags) in Heq.
    destruct l as [|[|l]]; [vm_compute in Heq; discriminate ..|lia]. }
  specialize (H 0%nat 1%nat (Hne 0%nat ltac:(lia)) (Hne 1%nat ltac:(lia))).
  discriminate.
Qed.

Lemma dispatch_receive_wakes_witness :
  fst (dispatch (P := example_platform) quiet_env hello_mem two_ports_ctx
         [0%nat; 1%nat] hello_msg reading_socks) 1%nat
  = reading_socks 1%nat.
Proof.
  destruct (dispatch_receive_wakes (P := example_platform) quiet_env hello_mem
              two_ports_ctx [0%nat; 1%nat] hello_msg reading_socks 40
              eq_refl eq_refl)
    as (marked & _ & Hout & Hin & _).
  apply Hout. intros H.
  destruct (Hin _ H) as (_ & _ & _ & ep & Hep & Hport & Hfd).
  destruct Hep as [<- | [<- | []]].
  - vm_compute in Hfd. discriminate.
  - vm_compute in Hport. discriminate.
Defined.

(** The drive phase takes 5000 ticks: the call returns 0 ms, not the
    5000 ms between entry and the end of the drive phase. *)
Lemma elapsed_excludes_drive_phase :
  let E := example_env 1 0 0 [] timeout_msg 0 0 5000 in
  let w := start reading_socks in
  let r := coap_run_once (P := example_platform) E hello_mem
             two_ports_ctx 1000 w in
  fst r = 0 /\
  ticks_to_ms (P := example_platform) (w_clock w) (w_clock (snd r)) = 5000 /\
  fst r <> ticks_to_ms (P := example_platform) (w_clock w) (w_clock (snd r)).
Proof. vm_compute. repeat split. discriminate. Qed.

Lemma coap_run_once_elapsed_witness :
  fst (coap_run_once (P := example_platform)
         (example_env 1 0 0 [] timeout_msg 2 250 5000) hello_mem
         two_ports_ctx 1000 (start reading_socks)) = 252.
Proof.
  apply (proj2 (proj2 (proj2
    (coap_run_once_elapsed (P := example_platform)
       (example_env 1 0 0 [] timeout_msg 2 250 5000) hello_mem
       two_ports_ctx 1000 (start reading_socks))))
    eq_refl
    ltac:(vm_compute; discriminate) ltac:(vm_compute; discriminate)
    eq_refl eq_refl
    ltac:(vm_compute; discriminate)).
Defined.

(** One socket is gathered and it wants writing only: interest is
    registered although no gathered socket wants reading. *)
Lemma registered_without_reader :
  let E := example_env 1 0 0 [0%nat] timeout_msg 0 0 0 in
  let w := start writing_socks in
  ~ (In (EvNetregRegister GNRC_NETTYPE_UDP)
       (run_events (P := example_platform) E hello_mem two_ports_ctx 1000 w)
     <->
     exists l, In l (gathered (P := example_platform) E two_ports_ctx w) /\
               wants_read (P := example_platform)
                 (store_after_write (P := example_platform) E two_ports_ctx w l)
               = true).
Proof.
  intros E w [H _].
  destruct H as (l & _ & Hw).
  - vm_compute. right. left. reflexivity.
  - vm_compute in Hw. discriminate.
Qed.

Lemma get_port_other_family_witness :
  get_port (P := example_platform) (Some (bind_addr odd_endpoint)) = 0.
Proof.
  apply (proj1 (proj2
    (get_port_other_family (P := example_platform) quiet_env odd_endpoint 0
       hello_mem 40 hello_chain [0%nat] [] [] reading_socks eq_refl))).
Defined.

Lemma netreg_interest_witness :
  exists rest,
    run_events (P := example_platform)
      (example_env 1 0 0 [0%nat] timeout_msg 0 0 0) hello_mem two_ports_ctx
      1000 (start writing_socks)
    = EvCoapWrite 16 0 :: EvNetregRegister GNRC_NETTYPE_UDP
      :: EvMsgReceiveTimeout 1000000000 :: rest.
Proof.
  apply (proj1 (proj2
    (netreg_interest (P := example_platform)
       (example_env 1 0 0 [0%nat] timeout_msg 0 0 0) hello_mem two_ports_ctx
       1000 (start writing_socks)))).
  vm_compute. discriminate.
Defined.

(** ** Instances of the further properties *)

Lemma coap_network_read_bounds_witness :
  List.length
    (payload (rr_packet (coap_network_read (P := example_platform)
                           quiet_env hello_mem ready_sock empty_packet)))
  = 1472%nat.
Proof.
  apply (proj1 (coap_network_read_bounds (P := example_platform)
                  quiet_env hello_mem ready_sock empty_packet eq_refl)).
Defined.

Lemma coap_network_read_copy_witness :
  let r := coap_network_read (P := example_platform)
             quiet_env hello_mem ready_sock empty_packet in
  skipn 5 (payload (rr_packet r)) = repeat x00 1467.
Proof.
  apply (proj2 (proj2 (coap_network_read_copy (P := example_platform)
    quiet_env hello_mem ready_sock empty_packet 0
    {| snip_data := Some 40; snip_size := 8; snip_type := GNRC_NETTYPE_UDP |}
    40
    ltac:(vm_compute; discriminate) eq_refl eq_refl eq_refl))).
Defined.

Lemma coap_network_read_addresses_witness :
  let p := rr_packet (coap_network_read (P := example_platform)
                        quiet_env hello_mem ready_sock empty_packet) in
  get_port (P := example_platform) (Some (dst p)) = 13078.
Proof.
  apply (proj1 (proj2 (proj2 (proj2 (proj2 (proj2
    (coap_network_read_addresses (P := example_platform)
       quiet_env hello_mem ready_sock empty_packet 0
       {| snip_data := Some 40; snip_size := 8;
          snip_type := GNRC_NETTYPE_UDP |}
       40
       ltac:(vm_compute; discriminate) eq_refl eq_refl eq_refl))))))).
Defined.

Lemma coap_network_read_short_header_witness :
  rr_ret (coap_network_read (P := example_platform)
            quiet_env hello_mem short_sock empty_packet) = 1472.
Proof.
  apply (proj1 (coap_network_read_short_header (P := example_platform)
    quiet_env hello_mem short_sock empty_packet 0
    {| snip_data := Some 40; snip_size := 3; snip_type := GNRC_NETTYPE_UDP |}
    40
    ltac:(vm_compute; discriminate) eq_refl eq_refl eq_refl
    ltac:(vm_compute; split; [discriminate | reflexivity])
    eq_refl)).
Defined.

Lemma wake_then_read_witness :
  let st' := fst (dispatch (P := example_platform) quiet_env hello_mem two_ports_ctx
                    [0%nat; 1%nat] hello_msg reading_socks) in
  rr_ret (coap_network_read (P := example_platform)
            quiet_env hello_mem (st' 0%nat) empty_packet) = 5.
Proof.
  apply (proj1 (wake_then_read (P := example_platform)
    quiet_env hello_mem two_ports_ctx [0%nat; 1%nat] hello_msg reading_socks
    empty_packet 40 0
    {| bind_addr := addr6 x01 port_5683; sock := 0%nat |} 0%nat
    ltac:(vm_compute; discriminate) eq_refl eq_refl eq_refl
    ltac:(left; reflexivity) eq_refl eq_refl)).
Defined.

Lemma dispatch_log_lines_witness :
  snd (dispatch (P := example_platform) quiet_env hello_mem two_ports_ctx
         [0%nat; 1%nat] hello_msg reading_socks)
  = [EvLog LOG_DEBUG ("fd %d on port %u can read" ++ LF)
       [ArgInt 3; ArgInt 5683]].
Proof.
  apply (dispatch_log_lines (P := example_platform) quiet_env hello_mem
           two_ports_ctx
           [0%nat; 1%nat] hello_msg reading_socks 40 eq_refl eq_refl).
Defined.

Lemma wait_wraps_witness :
  In (EvMsgReceiveTimeout 705032704)
     (run_events (P := example_platform) quiet_env hello_mem two_ports_ctx
        (5000 + 2 ^ 26) (start reading_socks)).
Proof.
  apply (proj2 (proj2 (wait_wraps (P := example_platform)
    quiet_env hello_mem two_ports_ctx 5000 (start reading_socks) 705032704
    eq_refl
    ltac:(vm_compute; discriminate)
    ltac:(vm_compute; right; left; reflexivity)))).
Defined.

Lemma coap_run_once_elapsed_wraparound_witness :
  fst (coap_run_once (P := example_platform)
         (example_env 1 0 0 [] timeout_msg 2 250 5000) hello_mem
         two_ports_ctx 1000 (late_start reading_socks)) = 252.
Proof.
  apply (coap_run_once_elapsed_wraparound (P := example_platform)
    (example_env 1 0 0 [] timeout_msg 2 250 5000) hello_mem
    two_ports_ctx 1000 (late_start reading_socks)
    eq_refl
    ltac:(vm_compute; discriminate)
    eq_refl
    ltac:(vm_compute; discriminate)).
Defined.

Lemma coap_run_once_drops_witness :
  count_events is_log
    (run_events (P := example_platform) quiet_env hello_mem two_ports_ctx
       1000 (start reading_socks)) = 0%nat.
Proof.
  apply (proj2 (coap_run_once_drops (P := example_platform)
    quiet_env hello_mem two_ports_ctx 1000 (start reading_socks)
    ltac:(left; discriminate))).
Defined.

Lemma coap_run_once_hands_over_witness :
  let E := example_env 1 0 0 [0%nat; 1%nat] hello_msg 0 0 0 in
  exists st',
    w_socks (snd (coap_run_once (P := example_platform) E hello_mem
                    two_ports_ctx 1000 (start reading_socks)))
    = env_coap_read E two_ports_ctx 0 st' /\
    st' 0%nat = {| fd := 3; flags := 272; pkt := hello_chain |} /\
    (forall l', ~ In l' [0%nat; 1%nat] -> st' l' = reading_socks l').
Proof.
  apply (coap_run_once_hands_over (P := example_platform)
    (example_env 1 0 0 [0%nat; 1%nat] hello_msg 0 0 0) hello_mem
    two_ports_ctx 1000 (start reading_socks) 40
    {| bind_addr := addr6 x01 port_5683; sock := 0%nat |} 0%nat
    eq_refl eq_refl ltac:(left; reflexivity) eq_refl eq_refl).
Defined.

Lemma port_match_on_wire_witness :
  fst (dispatch (P := example_platform) quiet_env hello_mem two_ports_ctx
         [0%nat; 1%nat] hello_msg reading_socks) 0%nat
  = {| fd := 3; flags := 272; pkt := hello_chain |}.
Proof.
  apply (proj1 (proj2 (proj2
    (port_match_on_wire (P := example_platform) quiet_env hello_mem
       two_ports_ctx [0%nat; 1%nat] hello_msg reading_socks 40
       eq_refl eq_refl)))
    {| bind_addr := addr6 x01 port_5683; sock := 0%nat |} 0%nat
    ltac:(left; reflexivity) eq_refl eq_refl).
Defined.
